(** * RansacLib: LO-RANSAC with MSAC scoring ([RansacLib/ransac.h])

    A shallow embedding of the estimation driver [LocallyOptimizedMSAC] and of
    its base class [RansacBase], together with the properties the
    specification states about them.

    Conventions of the embedding.
    - [double] values are idealised as real numbers ([R]): no rounding, no
      NaN, no overflow.  [std::numeric_limits<double>::max()] is the real
      constant [DBL_MAX].  Where the result of the program depends on the
      rounding of its arithmetic ([ScoreModel] and the threshold schedule of
      [LocalOptimization]), the code is embedded again with the rounding
      written out (section [RoundedArithmetic]) and on binary64 values.
    - [int] values are integers ([Z]); signed overflow is undefined in C++ and
      is not modelled.  [uint32_t] values are integers with the wrap-around
      modulo [2^32] written out where the code increments or converts.
    - [std::vector<int>] is [list Z]; [push_back] appends at the end.
    - A nullable output pointer is an [option].
    - Output parameters become components of the returned tuple.
    - The headers [RansacLib/sampling.h] and [RansacLib/utils.h] and the
      generator [std::mt19937] are not part of the embedded file; they are
      taken as parameters (record [RandomSource]).
    - Comparisons of doubles are decided by [Rlt_dec], [Rle_dec] and
      [Rge_dec]; a run on concrete data is evaluated by the tactic
      [run_concrete], which settles every comparison by linear arithmetic. *)

From Stdlib Require Import PrimFloat Uint63 SpecFloat FloatOps.
From Stdlib Require Import ZArith List Bool Sorted Reals Lra Lia.
Import ListNotations.

Local Open Scope Z_scope.

(** ** Numbers *)

(** [std::numeric_limits<double>::max()]: the largest finite binary64 value,
    [(2 - 2^-52) * 2^1023]. *)
Definition DBL_MAX : R := ((2 - / 2 ^ 52) * 2 ^ 1023)%R.

Definition UINT32_MODULUS : Z := 2 ^ 32.

(** A value of type [uint32_t]. *)
Definition is_uint32 (z : Z) : Prop := 0 <= z < UINT32_MODULUS.

(** [++x] on a [uint32_t]. *)
Definition uint32_incr (z : Z) : Z := (z + 1) mod UINT32_MODULUS.

(** [std::ceil] on doubles. *)
Definition std_ceil (x : R) : R := IZR (Zceil x).

(** [static_cast<uint32_t>(x)] for a double [x]: truncation towards zero.
    The conversion is undefined in C++ when the truncated value is out of
    range; the embedding wraps it modulo [2^32]. *)
Definition truncZ (x : R) : Z :=
  if Rle_dec 0 x then Zfloor x else Zceil x.
Definition double_to_uint32 (x : R) : Z := truncZ x mod UINT32_MODULUS.

(** [std::min] on doubles, as the standard library defines it:
    [min(a, b) = (b < a) ? b : a]. *)
Definition std_min (a b : R) : R := if Rlt_dec b a then b else a.

(** ** Loops *)

(** [for (int i = lo; i < hi; ++i) body], threading the state [s]. *)
Fixpoint for_loop {S : Type} (n : nat) (i : Z) (body : Z -> S -> S) (s : S) : S :=
  match n with
  | O => s
  | Datatypes.S n' => for_loop n' (i + 1) body (body i s)
  end.

Definition for_range {S : Type} (lo hi : Z) (body : Z -> S -> S) (s : S) : S :=
  for_loop (Z.to_nat (hi - lo)) lo body s.

(** ** Options and statistics *)

(** [LORansacOptions], with the fields it inherits from [RansacOptions]. *)
Record LORansacOptions : Type := mkLORansacOptions {
  min_num_iterations_ : Z;          (* uint32_t *)
  max_num_iterations_ : Z;          (* uint32_t *)
  success_probability_ : R;
  squared_inlier_threshold_ : R;
  random_seed_ : Z;                 (* unsigned int *)
  num_lo_steps_ : Z;
  threshold_multiplier_ : R;
  num_lsq_iterations_ : Z;
  min_sample_multiplicator_ : Z;
  non_min_sample_multiplier_ : Z
}.

(** The values the two constructors set. *)
Definition LORansacOptions_default : LORansacOptions :=
  {| min_num_iterations_ := 100;
     max_num_iterations_ := 10000;
     success_probability_ := (9999 / 10000)%R;
     squared_inlier_threshold_ := 1%R;
     random_seed_ := 0;
     num_lo_steps_ := 10;
     threshold_multiplier_ := sqrt 2;
     num_lsq_iterations_ := 4;
     min_sample_multiplicator_ := 7;
     non_min_sample_multiplier_ := 3 |}.

Record RansacStatistics : Type := mkRansacStatistics {
  num_iterations : Z;               (* uint32_t *)
  best_num_inliers : Z;
  best_model_score : R;
  inlier_ratio : R;
  inlier_indices : list Z
}.

(** ** RansacBase *)

Definition ResetStatistics (statistics : RansacStatistics) : RansacStatistics :=
  {| best_num_inliers := 0;
     best_model_score := DBL_MAX;
     num_iterations := 0;
     inlier_ratio := 0%R;
     inlier_indices := [] |}.

Definition NumRequiredIterations (inlier_ratio prob_missing_best_model : R)
    (sample_size min_iterations max_iterations : Z) : Z :=
  if Rle_dec inlier_ratio 0 then max_iterations
  else if Rge_dec inlier_ratio 1 then min_iterations
  else
    let kProbNonInlierSample :=
      (1 - Rpower inlier_ratio (IZR sample_size))%R in
    let kLogNumerator := ln prob_missing_best_model in
    let kLogDenominator := ln kProbNonInlierSample in
    let num_iters := std_ceil (kLogNumerator / kLogDenominator + 5 / 10)%R in
    let num_req_iterations :=
      Z.min (double_to_uint32 num_iters) max_iterations in
    let num_req_iterations := Z.max min_iterations num_req_iterations in
    num_req_iterations.

(** ** The solver interface and the random sources *)

(** The member functions [LocallyOptimizedMSAC] calls on its [Solver]
    template argument.  The solver is passed by const reference, so its
    member functions are functions of their arguments.
    - [MinimalSolver] receives the sample and the vector of models as it
      stands, and returns its result together with the vector it leaves.
    - [NonMinimalSolver] receives the sample and the model object it may
      write to, and returns its result together with that object. *)
Record Solver (Model : Type) : Type := mkSolver {
  min_sample_size : Z;
  non_minimal_sample_size : Z;
  num_data : Z;
  MinimalSolver : list Z -> list Model -> Z * list Model;
  NonMinimalSolver : list Z -> Model -> bool * Model;
  LeastSquares : list Z -> Model -> Model;
  EvaluateModelOnPoint : Model -> Z -> R
}.

Arguments min_sample_size {Model} _.
Arguments non_minimal_sample_size {Model} _.
Arguments num_data {Model} _.
Arguments MinimalSolver {Model} _ _ _.
Arguments NonMinimalSolver {Model} _ _ _.
Arguments LeastSquares {Model} _ _ _.
Arguments EvaluateModelOnPoint {Model} _ _ _.

(** What the driver uses from [sampling.h], [utils.h] and [<random>]:
    the generator state with its seeding, the partial shuffle
    [utils::RandomShuffleAndResize(k, &rng, &v)], and the class
    [UniformSampling] with its constructor and [Sample]. *)
Record RandomSource : Type := mkRandomSource {
  Rng : Type;
  rng_seed : Z -> Rng;
  RandomShuffleAndResize : Z -> Rng -> list Z -> Rng * list Z;
  UniformSampling : Type;
  UniformSampling_new : Z -> Z -> Z -> UniformSampling;
  Sample : UniformSampling -> list Z -> UniformSampling * list Z
}.

(** ** LocallyOptimizedMSAC *)

Section LocallyOptimizedMSAC.

(** The template arguments; [Model_default] is what [Model m;]
    constructs. *)
Context {Model : Type}.
Variable Model_default : Model.
Variable RS : RandomSource.

(** The vector behind a non-null [std::vector<int>*]. *)
Definition vector_of (p : option (list Z)) : list Z :=
  match p with Some v => v | None => [] end.

(** MSAC (top-hat) scoring function. *)
Definition ComputeScore (squared_error squared_error_threshold : R) : R :=
  std_min squared_error squared_error_threshold.

Definition ScoreModel (solver : Solver Model) (model : Model)
    (squared_inlier_threshold : R) : R :=
  let kNumData := num_data solver in
  for_range 0 kNumData
    (fun i score =>
       let squared_error := EvaluateModelOnPoint solver model i in
       (score + ComputeScore squared_error squared_inlier_threshold)%R)
    0%R.

(** [inliers = None] is the call with [nullptr]; otherwise the vector is
    cleared and filled.  The result is the returned count and the vector
    behind the pointer afterwards. *)
Definition GetInliers (solver : Solver Model) (model : Model)
    (squared_inlier_threshold : R) (inliers : option (list Z))
    : Z * option (list Z) :=
  let kNumData := num_data solver in
  match inliers with
  | None =>
      let num_inliers :=
        for_range 0 kNumData
          (fun i num_inliers =>
             let squared_error := EvaluateModelOnPoint solver model i in
             if Rlt_dec squared_error squared_inlier_threshold
             then num_inliers + 1 else num_inliers)
          0 in
      (num_inliers, None)
  | Some _ =>
      let '(num_inliers, v) :=
        for_range 0 kNumData
          (fun i '(num_inliers, v) =>
             let squared_error := EvaluateModelOnPoint solver model i in
             if Rlt_dec squared_error squared_inlier_threshold
             then (num_inliers + 1, v ++ [i]) else (num_inliers, v))
          (0, []) in
      (num_inliers, Some v)
  end.

(** The pair is [( *score_best, *m_best )]. *)
Definition UpdateBestModel (score_curr : R) (m_curr : Model)
    (best : R * Model) : R * Model :=
  let '(score_best, m_best) := best in
  if Rlt_dec score_curr score_best then (score_curr, m_curr)
  else (score_best, m_best).

(** The pair is [( *best_score, *best_model_id )]. *)
Definition GetBestEstimatedModelId (solver : Solver Model)
    (models : list Model) (squared_inlier_threshold : R) : R * Z :=
  let kNumEstimatedModels := Z.of_nat (length models) in
  for_range 0 kNumEstimatedModels
    (fun m '(best_score, best_model_id) =>
       let score :=
         ScoreModel solver (nth (Z.to_nat m) models Model_default)
           squared_inlier_threshold in
       if Rlt_dec score best_score then (score, m)
       else (best_score, best_model_id))
    (DBL_MAX, 0).

Definition LeastSquaresFit (options : LORansacOptions) (thresh : R)
    (solver : Solver Model) (rng : Rng RS) (model : Model)
    : Rng RS * Model :=
  let kLSqSampleSize :=
    min_sample_multiplicator_ options * min_sample_size solver in
  let '(num_inliers, inliers) := GetInliers solver model thresh (Some []) in
  let lsq_data_size := Z.min kLSqSampleSize num_inliers in
  let '(rng, inliers) :=
    RandomShuffleAndResize RS lsq_data_size rng (vector_of inliers) in
  (rng, LeastSquares solver inliers model).

(** The state the loops of [LocalOptimization] update: the generator, and
    [( *score_refined_model, *refined_model )]. *)
Definition LOState : Type := (Rng RS * (R * Model))%type.

(** One pass of the innermost loop (lines 345-349), on the generator, the
    model being refined, the current threshold and the refined best. *)
Definition lsq_pass (options : LORansacOptions) (solver : Solver Model)
    (thresh_mult_update : R)
    (st : Rng RS * Model * R * (R * Model))
    : Rng RS * Model * R * (R * Model) :=
  let '(rng, m_non_min, thresh, best) := st in
  let kSqInThresh := squared_inlier_threshold_ options in
  let '(rng, m_non_min) :=
    LeastSquaresFit options thresh solver rng m_non_min in
  let score := ScoreModel solver m_non_min kSqInThresh in
  let best := UpdateBestModel score m_non_min best in
  let thresh := (thresh - thresh_mult_update)%R in
  (rng, m_non_min, thresh, best).

(** Lines 337-350: the least squares refinement of a model the non-minimal
    solver produced.  Returns the generator, the model and the threshold
    as the loop leaves them, and the refined best. *)
Definition lsq_refinement (options : LORansacOptions)
    (solver : Solver Model) (rng : Rng RS) (m_non_min : Model)
    (best : R * Model) : Rng RS * Model * R * (R * Model) :=
  let kSqInThresh := squared_inlier_threshold_ options in
  let kThreshMult := threshold_multiplier_ options in
  let '(rng, m_non_min) :=
    LeastSquaresFit options kSqInThresh solver rng m_non_min in
  let thresh := (kThreshMult * kSqInThresh)%R in
  let thresh_mult_update :=
    ((kThreshMult - 1) * kSqInThresh
     / IZR (num_lsq_iterations_ options - 1))%R in
  for_range 0 (num_lsq_iterations_ options)
    (fun _ st => lsq_pass options solver thresh_mult_update st)
    (rng, m_non_min, thresh, best).

(** The body of the loop over [r] (lines 328-350). *)
Definition lo_step (options : LORansacOptions) (solver : Solver Model)
    (inliers_base : list Z) (kNonMinSampleSize : Z) (st : LOState)
    : LOState :=
  let '(rng, best) := st in
  let kSqInThresh := squared_inlier_threshold_ options in
  let sample := inliers_base in
  let '(rng, sample) :=
    RandomShuffleAndResize RS kNonMinSampleSize rng sample in
  let '(ok, m_non_min) := NonMinimalSolver solver sample Model_default in
  if negb ok then (rng, best)
  else
    let score := ScoreModel solver m_non_min kSqInThresh in
    let best := UpdateBestModel score m_non_min best in
    let '(rng, _, _, best) :=
      lsq_refinement options solver rng m_non_min best in
    (rng, best).

(** Returns [( *score_refined_model, *refined_model )]; both are assigned
    on entry, so what they held before the call does not matter. *)
Definition LocalOptimization (options : LORansacOptions)
    (solver : Solver Model) (best_minimal_model : Model)
    (score_best_minimal_model : R) : R * Model :=
  let best := (score_best_minimal_model, best_minimal_model) in
  let kNumData := num_data solver in
  let kMinNonMinSampleSize := non_minimal_sample_size solver in
  if kMinNonMinSampleSize >? kNumData then best
  else
    let kSqInThresh := squared_inlier_threshold_ options in
    let kThreshMult := threshold_multiplier_ options in
    let rng := rng_seed RS (random_seed_ options) in
    let m_init := best_minimal_model in
    let '(rng, m_init) :=
      LeastSquaresFit options (kSqInThresh * kThreshMult)%R solver rng
        m_init in
    let score := ScoreModel solver m_init kSqInThresh in
    let best := UpdateBestModel score m_init best in
    let '(num_inliers_base, inliers_base) :=
      GetInliers solver m_init kSqInThresh (Some []) in
    let inliers_base := vector_of inliers_base in
    let kNonMinSampleSize :=
      Z.max kMinNonMinSampleSize
        (Z.min (kMinNonMinSampleSize * non_min_sample_multiplier_ options)
           (Z.quot (Z.of_nat (length inliers_base)) 2)) in
    snd (for_range 0 (num_lo_steps_ options)
           (fun _ st =>
              lo_step options solver inliers_base kNonMinSampleSize st)
           (rng, best)).


(** The variables [EstimateModel] carries through its sampling loop:
    [*statistics], [*best_model], the sampler, the iteration budget
    [max_num_iterations], the best minimal model and its score, and the two
    vectors handed to the sampler and to the minimal solver. *)
Record LoopState : Type := mkLoopState {
  ls_stats : RansacStatistics;
  ls_best_model : Model;
  ls_sampler : UniformSampling RS;
  ls_max_num_iterations : Z;        (* uint32_t *)
  ls_best_minimal_model : Model;
  ls_best_min_model_score : R;
  ls_minimal_sample : list Z;
  ls_estimated_models : list Model
}.

(** The body of the sampling loop (lines 170-215), without the increment of
    the loop header. *)
Definition loop_body (options : LORansacOptions) (solver : Solver Model)
    (st : LoopState) : LoopState :=
  let kMinSampleSize := min_sample_size solver in
  let kNumData := num_data solver in
  let kSqrInlierThresh := squared_inlier_threshold_ options in
  let stats := ls_stats st in
  let '(sampler, minimal_sample) :=
    Sample RS (ls_sampler st) (ls_minimal_sample st) in
  let '(kNumEstimatedModels, estimated_models) :=
    MinimalSolver solver minimal_sample (ls_estimated_models st) in
  if kNumEstimatedModels <=? 0 then
    {| ls_stats := stats;
       ls_best_model := ls_best_model st;
       ls_sampler := sampler;
       ls_max_num_iterations := ls_max_num_iterations st;
       ls_best_minimal_model := ls_best_minimal_model st;
       ls_best_min_model_score := ls_best_min_model_score st;
       ls_minimal_sample := minimal_sample;
       ls_estimated_models := estimated_models |}
  else
    let '(best_local_score, best_local_model_id) :=
      GetBestEstimatedModelId solver estimated_models kSqrInlierThresh in
    if Rlt_dec best_local_score (ls_best_min_model_score st) then
      let best_min_model_score := best_local_score in
      let best_minimal_model :=
        nth (Z.to_nat best_local_model_id) estimated_models Model_default in
      let '(score_refined_model, refined_model) :=
        LocalOptimization options solver best_minimal_model
          best_min_model_score in
      let '(stats_best_model_score, best_model) :=
        UpdateBestModel score_refined_model best_minimal_model
          (best_model_score stats, ls_best_model st) in
      let '(stats_best_num_inliers, stats_inlier_indices) :=
        GetInliers solver best_model kSqrInlierThresh
          (Some (inlier_indices stats)) in
      let stats_inlier_ratio :=
        (IZR stats_best_num_inliers / IZR kNumData)%R in
      let max_num_iterations :=
        NumRequiredIterations stats_inlier_ratio
          (1 - success_probability_ options)%R kMinSampleSize
          (min_num_iterations_ options) (max_num_iterations_ options) in
      {| ls_stats :=
           {| num_iterations := num_iterations stats;
              best_num_inliers := stats_best_num_inliers;
              best_model_score := stats_best_model_score;
              inlier_ratio := stats_inlier_ratio;
              inlier_indices := vector_of stats_inlier_indices |};
         ls_best_model := best_model;
         ls_sampler := sampler;
         ls_max_num_iterations := max_num_iterations;
         ls_best_minimal_model := best_minimal_model;
         ls_best_min_model_score := best_min_model_score;
         ls_minimal_sample := minimal_sample;
         ls_estimated_models := estimated_models |}
    else
      {| ls_stats := stats;
         ls_best_model := ls_best_model st;
         ls_sampler := sampler;
         ls_max_num_iterations := ls_max_num_iterations st;
         ls_best_minimal_model := ls_best_minimal_model st;
         ls_best_min_model_score := ls_best_min_model_score st;
         ls_minimal_sample := minimal_sample;
         ls_estimated_models := estimated_models |}.

(** [++stats.num_iterations] of the loop header. *)
Definition loop_incr (st : LoopState) : LoopState :=
  let stats := ls_stats st in
  {| ls_stats :=
       {| num_iterations := uint32_incr (num_iterations stats);
          best_num_inliers := best_num_inliers stats;
          best_model_score := best_model_score stats;
          inlier_ratio := inlier_ratio stats;
          inlier_indices := inlier_indices stats |};
     ls_best_model := ls_best_model st;
     ls_sampler := ls_sampler st;
     ls_max_num_iterations := ls_max_num_iterations st;
     ls_best_minimal_model := ls_best_minimal_model st;
     ls_best_min_model_score := ls_best_min_model_score st;
     ls_minimal_sample := ls_minimal_sample st;
     ls_estimated_models := ls_estimated_models st |}.

(** The condition of the loop header; it reads the budget anew at every
    test. *)
Definition loop_cond (st : LoopState) : bool :=
  num_iterations (ls_stats st) <? ls_max_num_iterations st.

(** The sampling loop, run for at most [fuel] iterations. *)
Fixpoint sampling_loop (options : LORansacOptions) (solver : Solver Model)
    (fuel : nat) (st : LoopState) : LoopState :=
  match fuel with
  | O => st
  | Datatypes.S fuel' =>
      if loop_cond st
      then sampling_loop options solver fuel'
             (loop_incr (loop_body options solver st))
      else st
  end.

(** The state on entry to the sampling loop (lines 154-168). *)
Definition loop_init (options : LORansacOptions) (solver : Solver Model)
    (best_model : Model) (stats : RansacStatistics) : LoopState :=
  let kMinSampleSize := min_sample_size solver in
  let kNumData := num_data solver in
  {| ls_stats :=
       {| num_iterations := 0;
          best_num_inliers := best_num_inliers stats;
          best_model_score := best_model_score stats;
          inlier_ratio := inlier_ratio stats;
          inlier_indices := inlier_indices stats |};
     ls_best_model := best_model;
     ls_sampler :=
       UniformSampling_new RS (random_seed_ options) kNumData kMinSampleSize;
     ls_max_num_iterations :=
       Z.max (max_num_iterations_ options) (min_num_iterations_ options);
     ls_best_minimal_model := Model_default;
     ls_best_min_model_score := DBL_MAX;
     ls_minimal_sample := repeat 0 (Z.to_nat kMinSampleSize);
     ls_estimated_models := [] |}.

(** [EstimateModel(options, solver, best_model, statistics)]: the returned
    number of inliers, [*best_model] and [*statistics] after the call.  The
    iteration counter grows by one per iteration and the budget never
    exceeds its first value, so that value bounds the number of iterations
    (lemma [sampling_loop_exits] below shows that the loop has ended when
    the fuel is used up). *)
Definition EstimateModel (options : LORansacOptions) (solver : Solver Model)
    (best_model : Model) (statistics : RansacStatistics)
    : Z * Model * RansacStatistics :=
  let stats := ResetStatistics statistics in
  let kMinSampleSize := min_sample_size solver in
  let kNumData := num_data solver in
  if (kMinSampleSize >? kNumData) || (kMinSampleSize <=? 0) then
    (0, best_model, stats)
  else
    let st0 := loop_init options solver best_model stats in
    let st :=
      sampling_loop options solver (Z.to_nat (ls_max_num_iterations st0))
        st0 in
    (best_num_inliers (ls_stats st), ls_best_model st, ls_stats st).

End LocallyOptimizedMSAC.

Arguments ls_stats {Model RS} _.
Arguments ls_best_model {Model RS} _.
Arguments ls_sampler {Model RS} _.
Arguments ls_max_num_iterations {Model RS} _.
Arguments ls_best_minimal_model {Model RS} _.
Arguments ls_best_min_model_score {Model RS} _.
Arguments ls_minimal_sample {Model RS} _.
Arguments ls_estimated_models {Model RS} _.
Arguments loop_incr {Model RS} _.
Arguments loop_cond {Model RS} _.

(** ** The arithmetic on doubles, with its rounding

    [ScoreModel] adds doubles and the refinement loop of
    [LocalOptimization] multiplies, divides and subtracts them; what they
    return depends on how each result is rounded.  These functions are
    embedded here with the rounding written out: an arithmetic operation on
    doubles is the operation on real numbers followed by a rounding operator
    [rnd], which is how IEEE 754 defines the operations for results in
    range.  Comparisons, [std::min] and the conversion of a small [int] are
    exact.  The embedding above is the case of exact arithmetic, in which
    [rnd] is [exact]. *)

Definition exact (x : R) : R := x.

Section RoundedArithmetic.

Context {Model : Type}.
Variable RS : RandomSource.
Variable rnd : R -> R.

(** [ScoreModel], lines 240-248. *)
Definition ScoreModel_rounded (solver : Solver Model) (model : Model)
    (squared_inlier_threshold : R) : R :=
  let kNumData := num_data solver in
  for_range 0 kNumData
    (fun i score =>
       let squared_error := EvaluateModelOnPoint solver model i in
       rnd (score + ComputeScore squared_error squared_inlier_threshold))
    0%R.

(** One pass of the innermost loop of [LocalOptimization], lines 345-349. *)
Definition lsq_pass_rounded (options : LORansacOptions)
    (solver : Solver Model) (thresh_mult_update : R)
    (st : Rng RS * Model * R * (R * Model))
    : Rng RS * Model * R * (R * Model) :=
  let '(rng, m_non_min, thresh, best) := st in
  let kSqInThresh := squared_inlier_threshold_ options in
  let '(rng, m_non_min) :=
    LeastSquaresFit RS options thresh solver rng m_non_min in
  let score := ScoreModel_rounded solver m_non_min kSqInThresh in
  let best := UpdateBestModel score m_non_min best in
  let thresh := rnd (thresh - thresh_mult_update) in
  (rng, m_non_min, thresh, best).

(** The least squares refinement of [LocalOptimization], lines 337-350. *)
Definition lsq_refinement_rounded (options : LORansacOptions)
    (solver : Solver Model) (rng : Rng RS) (m_non_min : Model)
    (best : R * Model) : Rng RS * Model * R * (R * Model) :=
  let kSqInThresh := squared_inlier_threshold_ options in
  let kThreshMult := threshold_multiplier_ options in
  let '(rng, m_non_min) :=
    LeastSquaresFit RS options kSqInThresh solver rng m_non_min in
  let thresh := rnd (kThreshMult * kSqInThresh) in
  let thresh_mult_update :=
    rnd (rnd (rnd (kThreshMult - 1) * kSqInThresh)
         / IZR (num_lsq_iterations_ options - 1)) in
  for_range 0 (num_lsq_iterations_ options)
    (fun _ st => lsq_pass_rounded options solver thresh_mult_update st)
    (rng, m_non_min, thresh, best).

End RoundedArithmetic.

(** ** The same arithmetic on binary64 values

    The two computations in the arithmetic of the program itself, on the
    binary64 values of [PrimFloat]: the sum of [ScoreModel] for given
    residuals, and the thresholds the passes of the refinement loop are
    fitted under. *)

(** [std::min] on doubles. *)
Definition std_min_binary64 (a b : float) : float :=
  if PrimFloat.ltb b a then b else a.

(** [static_cast<double>] of a small non-negative [int]. *)
Definition double_of_int (z : Z) : float :=
  PrimFloat.of_uint63 (Uint63.of_Z z).

(** [ScoreModel], lines 240-248, for a model whose squared residual on point
    [i] is [squared_error i]. *)
Definition ScoreModel_binary64 (kNumData : Z) (squared_error : Z -> float)
    (squared_inlier_threshold : float) : float :=
  for_range 0 kNumData
    (fun i score =>
       PrimFloat.add score
         (std_min_binary64 (squared_error i) squared_inlier_threshold))
    PrimFloat.zero.

(** Lines 341-349: the thresholds handed to [LeastSquaresFit] by the passes
    of the refinement loop, in order. *)
Definition lsq_thresholds_binary64 (kThreshMult kSqInThresh : float)
    (num_lsq_iterations : Z) : list float :=
  let thresh := PrimFloat.mul kThreshMult kSqInThresh in
  let thresh_mult_update :=
    PrimFloat.div
      (PrimFloat.mul (PrimFloat.sub kThreshMult PrimFloat.one) kSqInThresh)
      (double_of_int (num_lsq_iterations - 1)) in
  snd (for_range 0 num_lsq_iterations
         (fun _ '(thresh, fitted_under) =>
            (PrimFloat.sub thresh thresh_mult_update,
             fitted_under ++ [thresh]))
         (thresh, [])).


(** * Definitions for the statements *)

(** ** Index ranges and inlier sets *)

(** The indices [i, i+1, ..., i+n-1] a loop visits. *)
Fixpoint Zseq (i : Z) (n : nat) : list Z :=
  match n with
  | O => []
  | Datatypes.S n' => i :: Zseq (i + 1) n'
  end.

Section StatementDefinitions.

Context {Model : Type}.
Variable Model_default : Model.
Variable RS : RandomSource.
Variable options : LORansacOptions.
Variable solver : Solver Model.
Variable rnd : R -> R.

(** The test of [GetInliers] on point [i]. *)
Definition is_inlier (model : Model) (squared_inlier_threshold : R) (i : Z)
    : bool :=
  if Rlt_dec (EvaluateModelOnPoint solver model i) squared_inlier_threshold
  then true else false.

(** The inliers of [model], in the order of the loop. *)
Definition inliers_of (model : Model) (squared_inlier_threshold : R)
    : list Z :=
  filter (is_inlier model squared_inlier_threshold)
    (Zseq 0 (Z.to_nat (num_data solver))).

(** ** The least squares refinement as the specification words it *)

(** A fit against the threshold [theta]: collect the points with squared
    residual below [theta], shuffle, truncate to
    [min(min_sample_multiplicator * min_sample_size, #inliers)] and hand
    the sample to [Solver.LeastSquares]. *)
Definition least_squares_on_inliers (theta : R) (rng : Rng RS) (m : Model)
    : Rng RS * Model :=
  let inliers := inliers_of m theta in
  let size :=
    Z.min (min_sample_multiplicator_ options * min_sample_size solver)
      (Z.of_nat (length inliers)) in
  let '(rng, sample) := RandomShuffleAndResize RS size rng inliers in
  (rng, LeastSquares solver sample m).

(** The decrement of the threshold, [(m - 1) * tau^2 / (n - 1)], in exact
    arithmetic. *)
Definition threshold_decrement : R :=
  ((threshold_multiplier_ options - 1) * squared_inlier_threshold_ options
   / IZR (num_lsq_iterations_ options - 1))%R.

(** The threshold of pass [i] (counted from [0]) in exact arithmetic:
    [m * tau^2] lowered [i] times by the decrement. *)
Definition annealed_threshold (i : Z) : R :=
  (threshold_multiplier_ options * squared_inlier_threshold_ options
   - IZR i * threshold_decrement)%R.

(** The decrement as the doubles compute it, every result rounded. *)
Definition threshold_decrement_rounded : R :=
  rnd (rnd (rnd (threshold_multiplier_ options - 1)
            * squared_inlier_threshold_ options)
       / IZR (num_lsq_iterations_ options - 1)).

(** [n] thresholds from [theta] on, each the one before lowered by [upd]. *)
Fixpoint thresholds_from (upd theta : R) (n : nat) : list R :=
  match n with
  | O => []
  | Datatypes.S n' => theta :: thresholds_from upd (rnd (theta - upd)) n'
  end.

(** The thresholds of the [num_lsq_iterations] passes, in order: the first
    is [m * tau^2], every later one the one before lowered by the
    decrement. *)
Definition annealing_schedule : list R :=
  thresholds_from threshold_decrement_rounded
    (rnd (threshold_multiplier_ options * squared_inlier_threshold_ options))
    (Z.to_nat (num_lsq_iterations_ options)).

(** One pass: fit least squares against the inliers under [theta], score
    under [tau^2], update the refined best. *)
Definition annealed_pass (theta : R) (st : Rng RS * Model * (R * Model))
    : Rng RS * Model * (R * Model) :=
  let '(rng, m, best) := st in
  let '(rng, m) := least_squares_on_inliers theta rng m in
  let score :=
    ScoreModel_rounded rnd solver m (squared_inlier_threshold_ options) in
  (rng, m, UpdateBestModel score m best).

(** The passes for a list of thresholds, one after the other. *)
Definition annealed_passes (thetas : list R)
    (st : Rng RS * Model * (R * Model)) : Rng RS * Model * (R * Model) :=
  fold_left (fun st theta => annealed_pass theta st) thetas st.

(** The refinement as the specification words it: the [num_lsq_iterations]
    passes and nothing else, the first one under [m * tau^2] on the model
    the non-minimal solver returned. *)
Definition lsq_refinement_as_specified (rng : Rng RS) (m_non_min : Model)
    (best : R * Model) : Rng RS * Model * (R * Model) :=
  annealed_passes annealing_schedule (rng, m_non_min, best).

(** The refinement with one least squares fit under [tau^2] before the
    passes; the result of that fit is not scored. *)
Definition lsq_refinement_with_first_fit (rng : Rng RS) (m_non_min : Model)
    (best : R * Model) : Rng RS * Model * (R * Model) :=
  let '(rng, m_non_min) :=
    least_squares_on_inliers (squared_inlier_threshold_ options) rng
      m_non_min in
  annealed_passes annealing_schedule (rng, m_non_min, best).

(** Drops the threshold from the state of the innermost loop. *)
Definition forget_threshold (st : Rng RS * Model * R * (R * Model))
    : Rng RS * Model * (R * Model) :=
  let '(rng, m, _, best) := st in (rng, m, best).

(** ** Invariants of the sampling loop *)

(** Counter and budget: the budget lies between [lo] and [hi], and the
    counter does not exceed [hi]. *)
Definition budget_inv (lo hi : Z) (st : LoopState (Model:=Model) RS) : Prop :=
  lo <= ls_max_num_iterations st <= hi /\
  0 <= num_iterations (ls_stats st) <= hi.

(** Every call of the minimal solver yields no model, or only models whose
    best score does not beat the initial best score. *)
Definition never_improves : Prop :=
  forall (sample : list Z) (models : list Model),
    let r := MinimalSolver solver sample models in
    fst r <= 0 \/
    ~ (fst (GetBestEstimatedModelId Model_default solver (snd r)
              (squared_inlier_threshold_ options)) < DBL_MAX)%R.

(** [*best_model] and the statistics other than the counter are as
    [ResetStatistics] and the caller left them. *)
Definition untouched (best_model : Model) (st : LoopState (Model:=Model) RS)
    : Prop :=
  ls_best_model st = best_model /\
  ls_best_min_model_score st = DBL_MAX /\
  best_num_inliers (ls_stats st) = 0 /\
  best_model_score (ls_stats st) = DBL_MAX /\
  inlier_ratio (ls_stats st) = 0%R /\
  inlier_indices (ls_stats st) = [].

End StatementDefinitions.

Arguments forget_threshold {Model RS} _.
Arguments budget_inv {Model RS} _ _ _.
Arguments untouched {Model RS} _ _.

(** ** Concrete data *)

(** A random source for concrete runs: the generator and the sampler count
    their calls, the shuffle keeps the order and truncates, and the sampler
    returns the first indices. *)
Definition counting_random_source : RandomSource :=
  {| Rng := Z;
     rng_seed := fun seed => seed;
     RandomShuffleAndResize :=
       fun k rng v => (rng + 1, firstn (Z.to_nat k) v);
     UniformSampling := Z;
     UniformSampling_new := fun seed _ _ => seed;
     Sample := fun s v => (s + 1, Zseq 0 (length v)) |}.

(** A solver on two points whose models are numbers: the minimal solver
    always proposes model [1], least squares always returns model [2], there
    is no non-minimal solver; model [2] fits both points exactly and every
    other model has squared residual [1/2] on both. *)
Definition refining_solver : Solver Z :=
  {| min_sample_size := 1;
     non_minimal_sample_size := 1;
     num_data := 2;
     MinimalSolver := fun _ _ => (1, [1]);
     NonMinimalSolver := fun _ m => (false, m);
     LeastSquares := fun _ _ => 2;
     EvaluateModelOnPoint := fun m _ => if m =? 2 then 0%R else (1 / 2)%R |}.

(** The default options, with the iteration counts cut to one. *)
Definition one_iteration_options : LORansacOptions :=
  {| min_num_iterations_ := 1;
     max_num_iterations_ := 1;
     success_probability_ := (9999 / 10000)%R;
     squared_inlier_threshold_ := 1%R;
     random_seed_ := 0;
     num_lo_steps_ := 10;
     threshold_multiplier_ := sqrt 2;
     num_lsq_iterations_ := 4;
     min_sample_multiplicator_ := 7;
     non_min_sample_multiplier_ := 3 |}.

Definition zero_statistics : RansacStatistics :=
  {| num_iterations := 0;
     best_num_inliers := 0;
     best_model_score := 0%R;
     inlier_ratio := 0%R;
     inlier_indices := [] |}.

(** A solver on one point whose models count the least squares fits applied
    to them: [LeastSquares] adds one to the model, the non-minimal solver
    returns model [0], and every model fits the point exactly. *)
Definition counting_solver : Solver Z :=
  {| min_sample_size := 1;
     non_minimal_sample_size := 1;
     num_data := 1;
     MinimalSolver := fun _ _ => (1, [0]);
     NonMinimalSolver := fun _ _ => (true, 0);
     LeastSquares := fun _ m => m + 1;
     EvaluateModelOnPoint := fun _ _ => 0%R |}.

(** A solver on three points whose minimal solver never returns a model. *)
Definition degenerate_solver : Solver Z :=
  {| min_sample_size := 2;
     non_minimal_sample_size := 3;
     num_data := 3;
     MinimalSolver := fun _ models => (0, models);
     NonMinimalSolver := fun _ m => (false, m);
     LeastSquares := fun _ m => m;
     EvaluateModelOnPoint := fun _ _ => 0%R |}.

(** Scenario S3: one point, but samples of two. *)
Definition one_point_solver : Solver Z :=
  {| min_sample_size := 2;
     non_minimal_sample_size := 3;
     num_data := 1;
     MinimalSolver := fun _ models => (0, models);
     NonMinimalSolver := fun _ m => (false, m);
     LeastSquares := fun _ m => m;
     EvaluateModelOnPoint := fun _ _ => 0%R |}.

(** ** Definitions for further properties of the functions *)

(** The double [NumRequiredIterations] rounds up and converts. *)
Definition iterations_formula (inlier_ratio prob_missing_best_model : R)
    (sample_size : Z) : R :=
  (ln prob_missing_best_model
   / ln (1 - Rpower inlier_ratio (IZR sample_size)) + 5 / 10)%R.

Section FurtherDefinitions.

Context {Model : Type}.
Variable Model_default : Model.
Variable RS : RandomSource.
Variable options : LORansacOptions.
Variable solver : Solver Model.

(** The score [GetBestEstimatedModelId] computes for [models[j]]. *)
Definition score_at (models : list Model) (thr : R) (j : Z) : R :=
  ScoreModel solver (nth (Z.to_nat j) models Model_default) thr.

(** What [( *best_score, *best_model_id )] satisfy when the loop of
    [GetBestEstimatedModelId] has visited the models before index [k]. *)
Definition best_of_prefix (models : list Model) (thr : R) (k : Z)
    (r : R * Z) : Prop :=
  (fst r <= DBL_MAX)%R /\
  (forall j, 0 <= j < k -> (fst r <= score_at models thr j)%R) /\
  ((fst r < DBL_MAX)%R ->
   0 <= snd r < k /\
   score_at models thr (snd r) = fst r /\
   forall j, 0 <= j < snd r -> (fst r < score_at models thr j)%R) /\
  (~ (fst r < DBL_MAX)%R -> r = (DBL_MAX, 0)).

(** The solver has no non-minimal solver: the dummy returning [false]. *)
Definition no_non_minimal_solver : Prop :=
  forall (sample : list Z) (m : Model),
    fst (NonMinimalSolver solver sample m) = false.

(** The solver has no least squares refinement: [LeastSquares] leaves the
    model as it is. *)
Definition no_least_squares : Prop :=
  forall (inliers : list Z) (m : Model), LeastSquares solver inliers m = m.

(** The inlier statistics agree with each other and with [*best_model]:
    the count is the length of the index vector, the ratio is the count
    over [num_data()], and the vector is empty with the score still at its
    initial value, or holds the inliers of [*best_model]. *)
Definition stats_coherent (st : LoopState (Model:=Model) RS) : Prop :=
  let stats := ls_stats st in
  best_num_inliers stats = Z.of_nat (length (inlier_indices stats)) /\
  inlier_ratio stats
  = (IZR (best_num_inliers stats) / IZR (num_data solver))%R /\
  ((inlier_indices stats = [] /\ best_model_score stats = DBL_MAX) \/
   inlier_indices stats
   = inliers_of solver (ls_best_model st) (squared_inlier_threshold_ options)).

(** The reported score against the scores of the stored models: the best
    minimal score never exceeds its initial value, the reported score never
    exceeds the best minimal score, and once below its initial value the
    reported score does not exceed the MSAC score of [*best_model]. *)
Definition score_bounded (st : LoopState (Model:=Model) RS) : Prop :=
  (ls_best_min_model_score st <= DBL_MAX)%R /\
  (best_model_score (ls_stats st) <= ls_best_min_model_score st)%R /\
  ((best_model_score (ls_stats st) < DBL_MAX)%R ->
   (best_model_score (ls_stats st)
    <= ScoreModel solver (ls_best_model st)
         (squared_inlier_threshold_ options))%R).

(** Without local optimization the reported score is the best minimal
    score, and once below its initial value it is the MSAC score of
    [*best_model]. *)
Definition score_exact (st : LoopState (Model:=Model) RS) : Prop :=
  (ls_best_min_model_score st <= DBL_MAX)%R /\
  best_model_score (ls_stats st) = ls_best_min_model_score st /\
  ((best_model_score (ls_stats st) < DBL_MAX)%R ->
   best_model_score (ls_stats st)
   = ScoreModel solver (ls_best_model st)
       (squared_inlier_threshold_ options)).

End FurtherDefinitions.

Arguments stats_coherent {Model RS} _ _ _.
Arguments score_bounded {Model RS} _ _ _.
Arguments score_exact {Model RS} _ _ _.

(** The partial shuffle returns elements of the vector it is given,
    whenever it is asked for no more elements than the vector holds. *)
Definition shuffle_keeps_elements (RS : RandomSource) : Prop :=
  forall (k : Z) (rng : Rng RS) (v : list Z),
    k <= Z.of_nat (length v) ->
    incl (snd (RandomShuffleAndResize RS k rng v)) v.

(** The candidate of the iteration that starts in [st] improves on the best
    minimal model so far: the body takes the branch of lines 184-215. *)
Definition body_improves {Model : Type} (Model_default : Model)
    (RS : RandomSource) (options : LORansacOptions) (solver : Solver Model)
    (st : LoopState (Model:=Model) RS) : bool :=
  let '(sampler, minimal_sample) :=
    Sample RS (ls_sampler st) (ls_minimal_sample st) in
  let '(kNumEstimatedModels, estimated_models) :=
    MinimalSolver solver minimal_sample (ls_estimated_models st) in
  if kNumEstimatedModels <=? 0 then false
  else
    let '(best_local_score, _) :=
      GetBestEstimatedModelId Model_default solver estimated_models
        (squared_inlier_threshold_ options) in
    if Rlt_dec best_local_score (ls_best_min_model_score st) then true
    else false.

(** No iteration of the run that starts in [st0] has an improving
    candidate: whenever the loop of [EstimateModel] enters another
    iteration, after any number of iterations within its first budget, the
    candidate of that iteration does not improve. *)
Definition run_never_improves {Model : Type} (Model_default : Model)
    (RS : RandomSource) (options : LORansacOptions) (solver : Solver Model)
    (st0 : LoopState (Model:=Model) RS) : Prop :=
  forall iterations : nat,
    (iterations < Z.to_nat (ls_max_num_iterations st0))%nat ->
    let st := sampling_loop Model_default RS options solver iterations st0 in
    loop_cond st = true ->
    body_improves Model_default RS options solver st = false.

(** One turn of the loop header and body: nothing once the loop has
    ended. *)
Definition loop_step {Model : Type} (Model_default : Model)
    (RS : RandomSource) (options : LORansacOptions) (solver : Solver Model)
    (st : LoopState (Model:=Model) RS) : LoopState (Model:=Model) RS :=
  if loop_cond st
  then loop_incr (loop_body Model_default RS options solver st)
  else st.

(** [thr] added [n] times to [0], every sum rounded. *)
Definition accumulated (rnd : R -> R) (thr : R) (n : nat) : R :=
  Nat.iter n (fun score => rnd (score + thr)%R) 0%R.

(** A rounding operator keeps the order. *)
Definition monotone (rnd : R -> R) : Prop :=
  forall x y : R, (x <= y)%R -> (rnd x <= rnd y)%R.

(** Rounding down to an integer: a rounding operator for concrete
    instances. *)
Definition round_down (x : R) : R := IZR (Zfloor x).

(** The budget is the first one, or the one [NumRequiredIterations] gives
    for the inlier ratio in the statistics. *)
Definition budget_follows_ratio {Model : Type} {RS : RandomSource}
    (options : LORansacOptions) (solver : Solver Model)
    (st : LoopState (Model:=Model) RS) : Prop :=
  ls_max_num_iterations st
  = Z.max (max_num_iterations_ options) (min_num_iterations_ options) \/
  ls_max_num_iterations st
  = NumRequiredIterations (inlier_ratio (ls_stats st))
      (1 - success_probability_ options)%R (min_sample_size solver)
      (min_num_iterations_ options) (max_num_iterations_ options).

(** ** Further concrete data *)

(** A solver on two points without non-minimal solver and without least
    squares refinement: the minimal solver always proposes model [1], and
    every model has squared residual [1/2] on both points. *)
Definition plain_solver : Solver Z :=
  {| min_sample_size := 1;
     non_minimal_sample_size := 1;
     num_data := 2;
     MinimalSolver := fun _ _ => (1, [1]);
     NonMinimalSolver := fun _ m => (false, m);
     LeastSquares := fun _ m => m;
     EvaluateModelOnPoint := fun _ _ => (1 / 2)%R |}.

(** A solver on two points whose minimal solver returns no model for the
    sample [[0]], the only one the sampler of [counting_random_source]
    draws for samples of one, and model [1] for every other sample. *)
Definition fussy_solver : Solver Z :=
  {| min_sample_size := 1;
     non_minimal_sample_size := 1;
     num_data := 2;
     MinimalSolver :=
       fun sample models =>
         match sample with
         | [0] => (0, models)
         | _ => (1, [1])
         end;
     NonMinimalSolver := fun _ m => (false, m);
     LeastSquares := fun _ m => m;
     EvaluateModelOnPoint := fun _ _ => 0%R |}.

(** The default options with the two iteration counts exchanged, so that
    [min_num_iterations > max_num_iterations]. *)
Definition exchanged_options : LORansacOptions :=
  {| min_num_iterations_ := 10000;
     max_num_iterations_ := 100;
     success_probability_ := (9999 / 10000)%R;
     squared_inlier_threshold_ := 1%R;
     random_seed_ := 0;
     num_lo_steps_ := 10;
     threshold_multiplier_ := sqrt 2;
     num_lsq_iterations_ := 4;
     min_sample_multiplicator_ := 7;
     non_min_sample_multiplier_ := 3 |}.

(** * Properties *)

(** ** Loops as folds over the index range *)

Lemma for_loop_fold {S : Type} (body : Z -> S -> S) (n : nat) :
  forall i s, for_loop n i body s = fold_left (fun s i => body i s) (Zseq i n) s.
Proof.
  induction n as [|n IH]; intros i s; simpl; [reflexivity | apply IH].
Qed.

Lemma Zseq_length (n : nat) : forall i, length (Zseq i n) = n.
Proof.
  induction n as [|n IH]; intros i; simpl; [reflexivity | now rewrite IH].
Qed.

Lemma Zseq_In (n : nat) :
  forall i k, In k (Zseq i n) <-> i <= k < i + Z.of_nat n.
Proof.
  induction n as [|n IH]; intros i k.
  - simpl. lia.
  - cbn [Zseq In]. rewrite IH. lia.
Qed.

Lemma Zseq_lower_bound (n : nat) (i : Z) :
  Forall (fun k => i <= k) (Zseq i n).
Proof.
  apply Forall_forall. intros k Hk. apply Zseq_In in Hk. lia.
Qed.

Lemma Zseq_sorted (n : nat) : forall i, StronglySorted Z.lt (Zseq i n).
Proof.
  induction n as [|n IH]; intros i; simpl; constructor.
  - apply IH.
  - apply Forall_forall. intros k Hk. apply Zseq_In in Hk. lia.
Qed.

Lemma map_Zseq_last {A : Type} (f : Z -> A) (d : A) (n : nat) :
  forall i, last (map f (Zseq i (Datatypes.S n))) d = f (i + Z.of_nat n).
Proof.
  induction n as [|n IH]; intros i.
  - cbn. now rewrite Z.add_0_r.
  - change (Zseq i (Datatypes.S (Datatypes.S n)))
      with (i :: Zseq (i + 1) (Datatypes.S n)).
    rewrite map_cons.
    change (last (f i :: map f (Zseq (i + 1) (Datatypes.S n))) d)
      with (last (map f (Zseq (i + 1) (Datatypes.S n))) d).
    rewrite IH. f_equal. lia.
Qed.

Lemma nth_map_Zseq {A : Type} (f : Z -> A) (d : A) (n : nat) :
  forall i k, (k < n)%nat -> nth k (map f (Zseq i n)) d = f (i + Z.of_nat k).
Proof.
  induction n as [|n IH]; intros i k Hk; [lia|].
  destruct k as [|k]; cbn [Zseq map nth].
  - now rewrite Z.add_0_r.
  - rewrite IH by lia. f_equal. lia.
Qed.

Lemma for_range_fold {S : Type} (body : Z -> S -> S) (lo hi : Z) (s : S) :
  for_range lo hi body s =
  fold_left (fun s i => body i s) (Zseq lo (Z.to_nat (hi - lo))) s.
Proof. unfold for_range. apply for_loop_fold. Qed.

Lemma for_range_empty {S : Type} (body : Z -> S -> S) (lo hi : Z) (s : S) :
  hi <= lo -> for_range lo hi body s = s.
Proof.
  intros H. unfold for_range.
  replace (Z.to_nat (hi - lo)) with O by lia. reflexivity.
Qed.

(** An invariant of the loop state is kept by the whole loop. *)
Lemma for_loop_invariant {S : Type} (P : S -> Prop) (body : Z -> S -> S) :
  (forall i s, P s -> P (body i s)) ->
  forall n i s, P s -> P (for_loop n i body s).
Proof.
  intros Hstep n. induction n as [|n IH]; intros i s Hs; simpl.
  - exact Hs.
  - apply IH, Hstep, Hs.
Qed.

Lemma filter_sorted {A : Type} (lt : A -> A -> Prop) (p : A -> bool) (l : list A) :
  StronglySorted lt l -> StronglySorted lt (filter p l).
Proof.
  induction 1 as [|a l Hl IH Ha]; simpl; [constructor|].
  destruct (p a); [constructor|]; auto.
  apply Forall_forall. intros x Hx. apply filter_In in Hx.
  rewrite Forall_forall in Ha. apply Ha, Hx.
Qed.

Lemma sorted_lt_NoDup (l : list Z) : StronglySorted Z.lt l -> NoDup l.
Proof.
  induction 1 as [|a l Hl IH Ha]; constructor; auto.
  intros Hin. rewrite Forall_forall in Ha. specialize (Ha a Hin). lia.
Qed.

(** ** Inlier extraction *)

Section InlierExtraction.

Context {Model : Type}.
Variable solver : Solver Model.
Variable model : Model.
Variable squared_inlier_threshold : R.

Local Abbreviation inlier :=
  (is_inlier solver model squared_inlier_threshold).
Local Abbreviation the_inliers :=
  (inliers_of solver model squared_inlier_threshold).

Lemma is_inlier_iff (i : Z) :
  inlier i = true <->
  (EvaluateModelOnPoint solver model i < squared_inlier_threshold)%R.
Proof.
  unfold is_inlier. destruct (Rlt_dec _ _); split; auto; discriminate.
Qed.

Lemma collect_fold (l : list Z) :
  forall n v,
    fold_left
      (fun (s : Z * list Z) i =>
         let '(num_inliers, v) := s in
         if Rlt_dec (EvaluateModelOnPoint solver model i)
              squared_inlier_threshold
         then (num_inliers + 1, v ++ [i]) else (num_inliers, v))
      l (n, v)
    = (n + Z.of_nat (length (filter inlier l)), v ++ filter inlier l).
Proof.
  induction l as [|i l IH]; intros n v; cbn [fold_left filter length].
  - now rewrite Z.add_0_r, app_nil_r.
  - change (inlier i) with
      (if Rlt_dec (EvaluateModelOnPoint solver model i)
            squared_inlier_threshold then true else false).
    destruct (Rlt_dec _ _); rewrite IH.
    + cbn [length]. rewrite <- app_assoc. cbn [app]. f_equal. lia.
    + reflexivity.
Qed.

Lemma count_fold (l : list Z) :
  forall n,
    fold_left
      (fun (num_inliers : Z) i =>
         if Rlt_dec (EvaluateModelOnPoint solver model i)
              squared_inlier_threshold
         then num_inliers + 1 else num_inliers)
      l n
    = n + Z.of_nat (length (filter inlier l)).
Proof.
  induction l as [|i l IH]; intros n; cbn [fold_left filter length].
  - lia.
  - change (inlier i) with
      (if Rlt_dec (EvaluateModelOnPoint solver model i)
            squared_inlier_threshold then true else false).
    destruct (Rlt_dec _ _); rewrite IH; cbn [length]; lia.
Qed.

Lemma GetInliers_collect (old : list Z) :
  GetInliers solver model squared_inlier_threshold (Some old)
  = (Z.of_nat (length the_inliers), Some the_inliers).
Proof.
  unfold GetInliers. rewrite for_range_fold, collect_fold.
  rewrite Z.sub_0_r. reflexivity.
Qed.

Lemma GetInliers_count :
  GetInliers solver model squared_inlier_threshold None
  = (Z.of_nat (length the_inliers), None).
Proof.
  unfold GetInliers. rewrite for_range_fold, count_fold.
  rewrite Z.sub_0_r. reflexivity.
Qed.

Lemma inliers_of_In (i : Z) :
  In i the_inliers <->
  0 <= i < num_data solver /\
  (EvaluateModelOnPoint solver model i < squared_inlier_threshold)%R.
Proof.
  unfold inliers_of. rewrite filter_In, Zseq_In, is_inlier_iff.
  split; intros [H1 H2]; split; auto; lia.
Qed.

Lemma inliers_of_sorted : StronglySorted Z.lt the_inliers.
Proof. apply filter_sorted, Zseq_sorted. Qed.

(** C7. For every model and threshold, the vector [GetInliers] collects
    holds exactly the indices [i] of [0 <= i < num_data()] with
    [EvaluateModelOnPoint(model, i) < threshold] (strict), in ascending order
    and without duplicates; its length is the returned count; and the call
    with a null pointer returns the same count. *)
Theorem GetInliers_spec (old : list Z) :
  let collected :=
    GetInliers solver model squared_inlier_threshold (Some old) in
  let counted := GetInliers solver model squared_inlier_threshold None in
  exists v,
    snd collected = Some v /\
    (forall i,
        In i v <->
        0 <= i < num_data solver /\
        (EvaluateModelOnPoint solver model i < squared_inlier_threshold)%R) /\
    StronglySorted Z.lt v /\
    NoDup v /\
    Z.of_nat (length v) = fst collected /\
    fst counted = fst collected.
Proof.
  cbv zeta. rewrite GetInliers_collect, GetInliers_count.
  exists the_inliers. cbn [fst snd].
  repeat split; try apply inliers_of_In; auto using inliers_of_sorted.
  apply sorted_lt_NoDup, inliers_of_sorted.
Qed.

End InlierExtraction.

(** ** MSAC scoring *)

Lemma std_min_Rmin (a b : R) : std_min a b = Rmin a b.
Proof.
  unfold std_min, Rmin.
  destruct (Rlt_dec b a), (Rle_dec a b); lra.
Qed.

Lemma ComputeScore_bounds (squared_error thr : R) :
  (0 <= squared_error)%R -> (0 <= thr)%R ->
  (0 <= ComputeScore squared_error thr <= thr)%R.
Proof.
  intros He Ht. unfold ComputeScore, std_min.
  destruct (Rlt_dec thr squared_error); lra.
Qed.

(** The running sum of [ScoreModel] after the points [i, ..., i+n-1]. *)
Lemma score_loop_bounds {Model : Type} (solver : Solver Model) (model : Model)
    (thr : R) (n : nat) :
  (0 <= thr)%R ->
  forall (i : Z) (score : R) (k : nat),
    (forall j, i <= j < i + Z.of_nat n ->
               (0 <= EvaluateModelOnPoint solver model j)%R) ->
    (0 <= score <= INR k * thr)%R ->
    (0 <= for_loop n i
            (fun i score =>
               (score + ComputeScore (EvaluateModelOnPoint solver model i) thr)%R)
            score
       <= INR (k + n) * thr)%R.
Proof.
  intros Ht. induction n as [|n IH]; intros i score k Hres Hs.
  - rewrite Nat.add_0_r. exact Hs.
  - cbn [for_loop].
    replace (k + Datatypes.S n)%nat with (Datatypes.S k + n)%nat by lia.
    apply IH.
    + intros j Hj. apply Hres. lia.
    + assert (Hc := ComputeScore_bounds
                      (EvaluateModelOnPoint solver model i) thr
                      (Hres i ltac:(lia)) Ht).
      rewrite S_INR. lra.
Qed.

(** In exact arithmetic the score lies between [0] and [N * tau^2]. *)
Lemma ScoreModel_exact_bounds {Model : Type} (solver : Solver Model)
    (model : Model) (squared_inlier_threshold : R) :
  0 <= num_data solver ->
  (0 <= squared_inlier_threshold)%R ->
  (forall i, 0 <= i < num_data solver ->
             (0 <= EvaluateModelOnPoint solver model i)%R) ->
  (0 <= ScoreModel solver model squared_inlier_threshold
     <= IZR (num_data solver) * squared_inlier_threshold)%R.
Proof.
  intros HN Ht Hres. unfold ScoreModel, for_range.
  rewrite Z.sub_0_r.
  rewrite <- (Z2Nat.id (num_data solver)) at 3 by exact HN.
  rewrite <- INR_IZR_INZ.
  apply (score_loop_bounds solver model squared_inlier_threshold
           (Z.to_nat (num_data solver)) Ht 0 0%R 0%nat).
  - intros j Hj. apply Hres. lia.
  - simpl. lra.
Qed.

Lemma accumulated_succ (rnd : R -> R) (thr : R) (n : nat) :
  accumulated rnd thr (Datatypes.S n)
  = rnd (accumulated rnd thr n + thr)%R.
Proof. reflexivity. Qed.

(** The running sum of [ScoreModel] with rounding, after the points
    [i, ..., i+n-1], against the threshold added as often. *)
Lemma score_loop_rounded_bounds {Model : Type} (rnd : R -> R)
    (solver : Solver Model) (model : Model) (thr : R) (n : nat) :
  monotone rnd -> rnd 0%R = 0%R -> (0 <= thr)%R ->
  forall (i : Z) (score : R) (k : nat),
    (forall j, i <= j < i + Z.of_nat n ->
               (0 <= EvaluateModelOnPoint solver model j)%R) ->
    (0 <= score <= accumulated rnd thr k)%R ->
    (0 <= for_loop n i
            (fun i score =>
               rnd (score
                    + ComputeScore (EvaluateModelOnPoint solver model i) thr))
            score
       <= accumulated rnd thr (k + n))%R.
Proof.
  intros Hmono Hzero Ht. induction n as [|n IH]; intros i score k Hres Hs.
  - rewrite Nat.add_0_r. exact Hs.
  - cbn [for_loop].
    replace (k + Datatypes.S n)%nat with (Datatypes.S k + n)%nat by lia.
    apply IH.
    + intros j Hj. apply Hres. lia.
    + assert (Hc := ComputeScore_bounds
                      (EvaluateModelOnPoint solver model i) thr
                      (Hres i ltac:(lia)) Ht).
      split.
      * rewrite <- Hzero. apply Hmono. lra.
      * rewrite accumulated_succ. apply Hmono. lra.
Qed.

Lemma accumulated_exact (thr : R) (n : nat) :
  accumulated exact thr n = (INR n * thr)%R.
Proof.
  induction n as [|n IH].
  - cbn. lra.
  - rewrite accumulated_succ, IH, S_INR. unfold exact. lra.
Qed.

(** C9 (as the code has it). For a model whose squared residuals are all
    non-negative, with [N = num_data() >= 0] and a threshold
    [tau^2 >= 0], the score [ScoreModel] computes is at least [0] and at
    most the value of adding [tau^2] to [0] [N] times in the arithmetic of
    the sum itself, whatever its rounding (a rounding that keeps the order
    and leaves [0] as it is).  In exact arithmetic that value is
    [N * tau^2], and the score lies between [0] and [N * tau^2]. *)
Theorem ScoreModel_bounds {Model : Type} (rnd : R -> R)
    (solver : Solver Model) (model : Model) (squared_inlier_threshold : R) :
  monotone rnd ->
  rnd 0%R = 0%R ->
  0 <= num_data solver ->
  (0 <= squared_inlier_threshold)%R ->
  (forall i, 0 <= i < num_data solver ->
             (0 <= EvaluateModelOnPoint solver model i)%R) ->
  (0 <= ScoreModel_rounded rnd solver model squared_inlier_threshold
     <= accumulated rnd squared_inlier_threshold
          (Z.to_nat (num_data solver)))%R /\
  ScoreModel_rounded exact solver model squared_inlier_threshold
  = ScoreModel solver model squared_inlier_threshold /\
  accumulated exact squared_inlier_threshold (Z.to_nat (num_data solver))
  = (IZR (num_data solver) * squared_inlier_threshold)%R /\
  (0 <= ScoreModel solver model squared_inlier_threshold
     <= IZR (num_data solver) * squared_inlier_threshold)%R.
Proof.
  intros Hmono Hzero HN Ht Hres.
  split; [|split; [reflexivity | split] ].
  - unfold ScoreModel_rounded, for_range. rewrite Z.sub_0_r.
    apply (score_loop_rounded_bounds rnd solver model
             squared_inlier_threshold (Z.to_nat (num_data solver))
             Hmono Hzero Ht 0 0%R 0%nat).
    + intros j Hj. apply Hres. lia.
    + cbn. lra.
  - rewrite accumulated_exact, INR_IZR_INZ, Z2Nat.id by exact HN.
    reflexivity.
  - apply ScoreModel_exact_bounds; assumption.
Qed.

(** ** Local optimization never returns a worse score *)

Section NoRegression.

Context {Model : Type}.
Variable Model_default : Model.
Variable RS : RandomSource.
Variable options : LORansacOptions.
Variable solver : Solver Model.

(** The bound the refined best respects throughout [LocalOptimization]. *)
Variable bound : R.

Lemma UpdateBestModel_le (score_curr : R) (m_curr : Model) (best : R * Model) :
  (fst best <= bound)%R ->
  (fst (UpdateBestModel score_curr m_curr best) <= bound)%R.
Proof.
  destruct best as [score_best m_best]. unfold UpdateBestModel. cbn [fst].
  destruct (Rlt_dec score_curr score_best); cbn [fst]; lra.
Qed.

Lemma lsq_pass_le (upd : R) (st : Rng RS * Model * R * (R * Model)) :
  (fst (snd st) <= bound)%R ->
  (fst (snd (lsq_pass RS options solver upd st)) <= bound)%R.
Proof.
  destruct st as [[[rng m] thresh] best]. cbn [snd]. intros H.
  unfold lsq_pass.
  destruct (LeastSquaresFit RS options thresh solver rng m) as [rng' m'].
  cbn [snd]. apply UpdateBestModel_le, H.
Qed.

Lemma lsq_refinement_le (rng : Rng RS) (m_non_min : Model) (best : R * Model) :
  (fst best <= bound)%R ->
  (fst (snd (lsq_refinement RS options solver rng m_non_min best))
   <= bound)%R.
Proof.
  intros H. unfold lsq_refinement, for_range.
  destruct (LeastSquaresFit RS options _ solver rng m_non_min) as [rng' m'].
  apply (for_loop_invariant
           (fun st : Rng RS * Model * R * (R * Model) =>
              (fst (snd st) <= bound)%R)).
  - intros _ st. apply lsq_pass_le.
  - exact H.
Qed.

Lemma lo_step_le (inliers_base : list Z) (k : Z) (st : LOState RS) :
  (fst (snd st) <= bound)%R ->
  (fst (snd (lo_step Model_default RS options solver inliers_base k st))
   <= bound)%R.
Proof.
  destruct st as [rng best]. cbn [snd]. intros H. unfold lo_step.
  destruct (RandomShuffleAndResize RS k rng inliers_base) as [rng1 sample].
  destruct (NonMinimalSolver solver sample Model_default) as [ok m_non_min].
  destruct ok; cbn [negb snd]; [|exact H].
  pose proof (lsq_refinement_le rng1 m_non_min
                (UpdateBestModel
                   (ScoreModel solver m_non_min
                      (squared_inlier_threshold_ options))
                   m_non_min best)
                (UpdateBestModel_le _ _ _ H)) as Hr.
  destruct (lsq_refinement RS options solver rng1 m_non_min _)
    as [[[rng2 m2] th2] best2].
  exact Hr.
Qed.

End NoRegression.

(** C2. For every solver, every options and every input model with its
    score, the score [LocalOptimization] returns is less than or equal to the
    input score. *)
Theorem LocalOptimization_no_regression {Model : Type} (Model_default : Model)
    (RS : RandomSource) (options : LORansacOptions) (solver : Solver Model)
    (best_minimal_model : Model) (score_best_minimal_model : R) :
  (fst (LocalOptimization Model_default RS options solver best_minimal_model
          score_best_minimal_model)
   <= score_best_minimal_model)%R.
Proof.
  unfold LocalOptimization.
  destruct (non_minimal_sample_size solver >? num_data solver).
  - cbn [fst]. lra.
  - destruct (LeastSquaresFit RS options _ solver _ best_minimal_model)
      as [rng m_init].
    destruct (GetInliers solver m_init _ _) as [num_inliers_base inliers_base].
    unfold for_range.
    apply (for_loop_invariant
             (fun st : LOState RS =>
                (fst (snd st) <= score_best_minimal_model)%R)).
    + intros _ st. apply lo_step_le.
    + cbn [snd]. apply UpdateBestModel_le. cbn [fst]. lra.
Qed.

(** ** The annealed least squares passes of one LO step *)

Section Annealing.

Context {Model : Type}.
Variable RS : RandomSource.
Variable options : LORansacOptions.
Variable solver : Solver Model.

(** [LeastSquaresFit] is the fit the specification describes: it fits on a
    sample of [min(min_sample_multiplicator * min_sample_size, #inliers)]
    indices drawn from the inliers under its threshold. *)
Lemma LeastSquaresFit_unfold (thresh : R) (rng : Rng RS) (model : Model) :
  LeastSquaresFit RS options thresh solver rng model
  = least_squares_on_inliers RS options solver thresh rng model.
Proof.
  unfold LeastSquaresFit, least_squares_on_inliers.
  rewrite GetInliers_collect. reflexivity.
Qed.

Section AnyRounding.

Variable rnd : R -> R.

Local Abbreviation passes := (annealed_passes RS options solver rnd).

(** The innermost loop, read as passes under the thresholds it goes
    through. *)
Lemma lsq_loop_annealed (upd : R) (n : nat) :
  forall (i : Z) (rng : Rng RS) (m : Model) (theta : R) (best : R * Model),
    forget_threshold
      (for_loop n i
         (fun _ st => lsq_pass_rounded RS rnd options solver upd st)
         (rng, m, theta, best))
    = passes (thresholds_from rnd upd theta n) (rng, m, best).
Proof.
  induction n as [|n IH]; intros i rng m theta best.
  - reflexivity.
  - cbn [for_loop thresholds_from annealed_passes fold_left].
    unfold lsq_pass_rounded at 2. unfold annealed_pass at 2.
    rewrite LeastSquaresFit_unfold.
    destruct (least_squares_on_inliers RS options solver theta rng m)
      as [rng1 m1].
    apply IH.
Qed.

(** The refinement of the code is the first fit followed by the passes of
    the schedule. *)
Lemma lsq_refinement_unfold (rng : Rng RS) (m_non_min : Model)
    (best : R * Model) :
  forget_threshold
    (lsq_refinement_rounded RS rnd options solver rng m_non_min best)
  = lsq_refinement_with_first_fit RS options solver rnd rng m_non_min best.
Proof.
  unfold lsq_refinement_rounded, lsq_refinement_with_first_fit,
    annealing_schedule, threshold_decrement_rounded, for_range.
  rewrite LeastSquaresFit_unfold.
  destruct (least_squares_on_inliers RS options solver
              (squared_inlier_threshold_ options) rng m_non_min)
    as [rng0 m0].
  rewrite Z.sub_0_r. apply lsq_loop_annealed.
Qed.

Lemma thresholds_from_length (upd : R) (n : nat) :
  forall theta, length (thresholds_from rnd upd theta n) = n.
Proof.
  induction n as [|n IH]; intros theta; cbn [thresholds_from length];
    [reflexivity | now rewrite IH].
Qed.

(** Every threshold but the first is the one before it, lowered by the
    decrement and rounded. *)
Lemma thresholds_from_next (upd : R) (n : nat) :
  forall theta (k : nat),
    (Datatypes.S k < n)%nat ->
    nth (Datatypes.S k) (thresholds_from rnd upd theta n) 0%R
    = rnd (nth k (thresholds_from rnd upd theta n) 0%R - upd).
Proof.
  induction n as [|n IH]; intros theta k Hk; [lia|].
  destruct k as [|k].
  - destruct n as [|n]; [lia | reflexivity].
  - cbn [thresholds_from nth]. apply IH. lia.
Qed.

End AnyRounding.

(** In exact arithmetic threshold [i] is [m * tau^2 - i * decrement]. *)
Lemma thresholds_from_exact (upd : R) (n : nat) :
  forall (theta : R) (i : Z),
    thresholds_from exact upd (theta - IZR i * upd)%R n
    = map (fun j => (theta - IZR j * upd)%R) (Zseq i n).
Proof.
  induction n as [|n IH]; intros theta i; cbn [thresholds_from Zseq map];
    [reflexivity|].
  f_equal. rewrite <- IH. f_equal. unfold exact. rewrite plus_IZR. lra.
Qed.

Lemma annealing_schedule_exact :
  annealing_schedule options exact
  = map (annealed_threshold options)
      (Zseq 0 (Z.to_nat (num_lsq_iterations_ options))).
Proof.
  unfold annealing_schedule.
  change (threshold_decrement_rounded options exact)
    with (threshold_decrement options).
  replace (exact (threshold_multiplier_ options
                  * squared_inlier_threshold_ options))
    with (threshold_multiplier_ options * squared_inlier_threshold_ options
          - IZR 0 * threshold_decrement options)%R
    by (unfold exact; lra).
  apply thresholds_from_exact.
Qed.

Lemma annealed_threshold_0 :
  annealed_threshold options 0
  = (threshold_multiplier_ options * squared_inlier_threshold_ options)%R.
Proof. unfold annealed_threshold. lra. Qed.

Lemma annealed_threshold_last :
  2 <= num_lsq_iterations_ options ->
  annealed_threshold options (num_lsq_iterations_ options - 1)
  = squared_inlier_threshold_ options.
Proof.
  intros Hn. unfold annealed_threshold, threshold_decrement.
  assert (IZR (num_lsq_iterations_ options - 1) <> 0%R) as Hnz.
  { apply not_0_IZR. lia. }
  field. exact Hnz.
Qed.

(** The embedding in exact arithmetic is the embedding with rounding at
    [exact]. *)
Lemma lsq_refinement_rounded_exact (rng : Rng RS) (m_non_min : Model)
    (best : R * Model) :
  lsq_refinement_rounded RS exact options solver rng m_non_min best
  = lsq_refinement RS options solver rng m_non_min best.
Proof. reflexivity. Qed.


End Annealing.

(** ** The largest finite double *)

Lemma DBL_MAX_finite : (DBL_MAX < 2 ^ 1024)%R.
Proof.
  unfold DBL_MAX.
  assert (0 < 2 ^ 1023)%R as Hp by (apply pow_lt; lra).
  assert (0 < / 2 ^ 52)%R as Hq by (apply Rinv_0_lt_compat, pow_lt; lra).
  change (2 ^ 1024)%R with (2 * 2 ^ 1023)%R.
  apply Rmult_lt_compat_r; [exact Hp | lra].
Qed.

Lemma DBL_MAX_large : (2 ^ 1023 <= DBL_MAX)%R.
Proof.
  unfold DBL_MAX.
  assert (0 < 2 ^ 1023)%R as Hp by (apply pow_lt; lra).
  assert (/ 2 ^ 52 <= 1)%R as Hq.
  { rewrite <- Rinv_1. apply Rinv_le_contravar; [lra|].
    apply pow_R1_Rle. lra. }
  rewrite <- (Rmult_1_l (2 ^ 1023)) at 1.
  apply Rmult_le_compat_r; lra.
Qed.

(** ** The number of required iterations *)

Lemma double_to_uint32_IZR (z : Z) :
  is_uint32 z -> double_to_uint32 (IZR z) = z.
Proof.
  intros [H0 H1]. unfold double_to_uint32, truncZ.
  destruct (Rle_dec 0 (IZR z)) as [_|Hn].
  - rewrite ZfloorZ. apply Z.mod_small. split; assumption.
  - exfalso. apply Hn. now apply IZR_le.
Qed.

(** Comparing powers of positive numbers through their logarithms. *)
Lemma ln_pow_lt (x y : R) (n m : nat) :
  (0 < x)%R -> (0 < y)%R -> (x ^ n < y ^ m)%R ->
  (INR n * ln x < INR m * ln y)%R.
Proof.
  intros Hx Hy H.
  rewrite <- (ln_pow x Hx n), <- (ln_pow y Hy m).
  apply ln_increasing; [apply pow_lt, Hx | exact H].
Qed.

(** Powers of a fraction of integers against powers of an integer, decided
    on the integers. *)
Lemma pow_frac_lt_pow (p q r : Z) (n m : nat) :
  0 < q ->
  p ^ Z.of_nat n < r ^ Z.of_nat m * q ^ Z.of_nat n ->
  ((IZR p / IZR q) ^ n < IZR r ^ m)%R.
Proof.
  intros Hq H.
  assert (0 < IZR q ^ n)%R as Hqn by (apply pow_lt; now apply IZR_lt).
  unfold Rdiv. rewrite Rpow_mult_distr, pow_inv.
  apply (Rmult_lt_reg_r (IZR q ^ n)); [exact Hqn|].
  rewrite Rmult_assoc, Rinv_l, Rmult_1_r by lra.
  rewrite !pow_IZR, <- mult_IZR. now apply IZR_lt.
Qed.

Lemma pow_lt_pow_frac (p q r : Z) (n m : nat) :
  0 < q ->
  r ^ Z.of_nat m * q ^ Z.of_nat n < p ^ Z.of_nat n ->
  (IZR r ^ m < (IZR p / IZR q) ^ n)%R.
Proof.
  intros Hq H.
  assert (0 < IZR q ^ n)%R as Hqn by (apply pow_lt; now apply IZR_lt).
  unfold Rdiv. rewrite Rpow_mult_distr, pow_inv.
  apply (Rmult_lt_reg_r (IZR q ^ n)); [exact Hqn|].
  rewrite Rmult_assoc, Rinv_l, Rmult_1_r by lra.
  rewrite !pow_IZR, <- mult_IZR. now apply IZR_lt.
Qed.

Lemma Rdiv_between (a b lo hi : R) :
  (0 < b)%R -> (lo * b < a < hi * b)%R -> (lo < a / b < hi)%R.
Proof.
  intros Hb [Hlo Hhi].
  assert (a / b * b = a)%R as E by (field; lra).
  split; apply (Rmult_lt_reg_r b); try exact Hb; rewrite E; assumption.
Qed.

(** [(16/15)^285 < 10^8 < (16/15)^287], so
    [142.5 < ln 10^4 / ln (16/15) < 143.5]. *)
Lemma ln_10000_over_ln_16_15 :
  (285 / 2 < ln 10000 / ln (16 / 15) < 287 / 2)%R.
Proof.
  assert (0 < ln (16 / 15))%R as HD.
  { rewrite <- ln_1. apply ln_increasing; lra. }
  assert (ln 10000 = 4 * ln 10)%R as HL.
  { replace 10000%R with (10 ^ 4)%R by lra.
    rewrite ln_pow by lra. simpl INR. lra. }
  assert (285 * ln (16 / 15) < 8 * ln 10)%R as Hlo.
  { pose proof (ln_pow_lt (16 / 15) 10 285 8 ltac:(lra) ltac:(lra)) as H.
    rewrite !INR_IZR_INZ in H. cbn [Z.of_nat Pos.of_succ_nat Pos.succ] in H.
    apply H. apply pow_frac_lt_pow; [lia|]. vm_compute. reflexivity. }
  assert (8 * ln 10 < 287 * ln (16 / 15))%R as Hhi.
  { pose proof (ln_pow_lt 10 (16 / 15) 8 287 ltac:(lra) ltac:(lra)) as H.
    rewrite !INR_IZR_INZ in H. cbn [Z.of_nat Pos.of_succ_nat Pos.succ] in H.
    apply H. apply pow_lt_pow_frac; [lia|]. vm_compute. reflexivity. }
  apply Rdiv_between; [exact HD | lra].
Qed.

Lemma NumRequiredIterations_interior (eps eta : R) (s min_it max_it k : Z) :
  (0 < eps < 1)%R ->
  is_uint32 k ->
  (IZR k - 1 < ln eta / ln (1 - Rpower eps (IZR s)) + 5 / 10 <= IZR k)%R ->
  NumRequiredIterations eps eta s min_it max_it
  = Z.max min_it (Z.min k max_it).
Proof.
  intros Heps Hk Hceil. unfold NumRequiredIterations.
  destruct (Rle_dec eps 0) as [H|_]; [lra|].
  destruct (Rge_dec eps 1) as [H|_]; [lra|].
  unfold std_ceil. rewrite (Zceil_eq k) by exact Hceil.
  now rewrite double_to_uint32_IZR.
Qed.

Lemma NumRequiredIterations_half :
  NumRequiredIterations (5 / 10) (1 / 10000) 4 100 10000 = 144.
Proof.
  rewrite (NumRequiredIterations_interior _ _ _ _ _ 144).
  - reflexivity.
  - lra.
  - unfold is_uint32, UINT32_MODULUS. lia.
  - replace (IZR 4) with (INR 4) by (simpl; lra).
    rewrite Rpower_pow by lra.
    replace (1 - (5 / 10) ^ 4)%R with (/ (16 / 15))%R by (simpl; field).
    replace (1 / 10000)%R with (/ 10000)%R by lra.
    rewrite !ln_Rinv by lra.
    pose proof ln_10000_over_ln_16_15 as [Hlo Hhi].
    assert (0 < ln (16 / 15))%R as HD.
    { rewrite <- ln_1. apply ln_increasing; lra. }
    replace (- ln 10000 / - ln (16 / 15))%R
      with (ln 10000 / ln (16 / 15))%R by (field; lra).
    lra.
Qed.

Lemma NumRequiredIterations_no_inliers (eps eta : R) (s min_it max_it : Z) :
  (eps <= 0)%R -> NumRequiredIterations eps eta s min_it max_it = max_it.
Proof.
  intros H. unfold NumRequiredIterations.
  destruct (Rle_dec eps 0); [reflexivity | contradiction].
Qed.

Lemma NumRequiredIterations_all_inliers (eps eta : R) (s min_it max_it : Z) :
  (1 <= eps)%R -> NumRequiredIterations eps eta s min_it max_it = min_it.
Proof.
  intros H. unfold NumRequiredIterations.
  destruct (Rle_dec eps 0); [lra|].
  destruct (Rge_dec eps 1); [reflexivity | lra].
Qed.

(** The result is clamped to [[min_iterations, max_iterations]], whatever
    the formula and the conversion to [uint32_t] give. *)
Lemma NumRequiredIterations_clamped (eps eta : R) (s min_it max_it : Z) :
  min_it <= max_it ->
  min_it <= NumRequiredIterations eps eta s min_it max_it <= max_it.
Proof.
  intros H. unfold NumRequiredIterations.
  destruct (Rle_dec eps 0); [lia|].
  destruct (Rge_dec eps 1); lia.
Qed.

Lemma NumRequiredIterations_upper (eps eta : R) (s min_it max_it : Z) :
  NumRequiredIterations eps eta s min_it max_it <= Z.max max_it min_it.
Proof.
  unfold NumRequiredIterations.
  destruct (Rle_dec eps 0); [lia|].
  destruct (Rge_dec eps 1); lia.
Qed.

(** C4 (refuted as stated). [NumRequiredIterations(0.5, 0.0001, 4, 100,
    10000)] is not [140]. *)
Lemma NumRequiredIterations_half_not_140 :
  NumRequiredIterations (5 / 10) (1 / 10000) 4 100 10000 <> 140.
Proof. rewrite NumRequiredIterations_half. discriminate. Qed.

(** C4 (as the code has it). [NumRequiredIterations(0.5, 0.0001, 4, 100,
    10000)] returns [144], the ceiling of
    [ln 0.0001 / ln (1 - 0.5^4) + 0.5 = 143.2...]; for inlier ratio [0.0]
    the function returns [max_iterations] and for inlier ratio [1.0] it
    returns [min_iterations]. *)
Theorem NumRequiredIterations_table :
  NumRequiredIterations (5 / 10) (1 / 10000) 4 100 10000 = 144 /\
  (forall eta s min_it max_it,
      NumRequiredIterations 0 eta s min_it max_it = max_it) /\
  (forall eta s min_it max_it,
      NumRequiredIterations 1 eta s min_it max_it = min_it).
Proof.
  split; [exact NumRequiredIterations_half | split]; intros.
  - apply NumRequiredIterations_no_inliers. lra.
  - apply NumRequiredIterations_all_inliers. lra.
Qed.

(** ** The estimation driver *)

Section Driver.

Context {Model : Type}.
Variable Model_default : Model.
Variable RS : RandomSource.
Variable options : LORansacOptions.
Variable solver : Solver Model.

Local Abbreviation body := (loop_body Model_default RS options solver).
Local Abbreviation run := (sampling_loop Model_default RS options solver).
Local Abbreviation init := (loop_init Model_default RS options solver).
Local Abbreviation no_improvement :=
  (never_improves Model_default options solver).

(** *** What one iteration does to the counter and to the budget *)

Lemma loop_body_num_iterations (st : LoopState (Model:=Model) RS) :
  num_iterations (ls_stats (body st)) = num_iterations (ls_stats st).
Proof.
  unfold loop_body.
  destruct (Sample RS _ _) as [sampler minimal_sample].
  destruct (MinimalSolver solver _ _) as [k estimated_models].
  destruct (k <=? 0); [reflexivity|].
  destruct (GetBestEstimatedModelId _ _ _ _) as [best_local_score id].
  destruct (Rlt_dec _ _); [|reflexivity].
  destruct (LocalOptimization _ _ _ _ _ _) as [score_refined refined].
  destruct (UpdateBestModel _ _ _) as [score best_model].
  destruct (GetInliers _ _ _ _) as [n v]. reflexivity.
Qed.

(** The budget after an iteration is the budget before it or a value of
    [NumRequiredIterations]. *)
Lemma loop_body_budget (st : LoopState (Model:=Model) RS) :
  ls_max_num_iterations (body st) = ls_max_num_iterations st \/
  exists eps eta,
    ls_max_num_iterations (body st)
    = NumRequiredIterations eps eta (min_sample_size solver)
        (min_num_iterations_ options) (max_num_iterations_ options).
Proof.
  unfold loop_body.
  destruct (Sample RS _ _) as [sampler minimal_sample].
  destruct (MinimalSolver solver _ _) as [k estimated_models].
  destruct (k <=? 0); [now left|].
  destruct (GetBestEstimatedModelId _ _ _ _) as [best_local_score id].
  destruct (Rlt_dec _ _); [|now left].
  destruct (LocalOptimization _ _ _ _ _ _) as [score_refined refined].
  destruct (UpdateBestModel _ _ _) as [score best_model].
  destruct (GetInliers _ _ _ _) as [n v]. right.
  cbn [ls_max_num_iterations]. eexists. eexists. reflexivity.
Qed.

Section Budget.

Variables lo hi : Z.
Hypothesis hi_uint32 : is_uint32 hi.
Hypothesis required_bounds :
  forall eps eta,
    lo <= NumRequiredIterations eps eta (min_sample_size solver)
            (min_num_iterations_ options) (max_num_iterations_ options)
       <= hi.

Lemma budget_inv_step (st : LoopState (Model:=Model) RS) :
  budget_inv lo hi st -> loop_cond st = true ->
  budget_inv lo hi (loop_incr (body st)) /\
  num_iterations (ls_stats (loop_incr (body st)))
  = num_iterations (ls_stats st) + 1.
Proof.
  intros [HT Hit] Hc. unfold loop_cond in Hc. apply Z.ltb_lt in Hc.
  unfold budget_inv, loop_incr. cbn [ls_stats ls_max_num_iterations num_iterations].
  rewrite loop_body_num_iterations.
  assert (uint32_incr (num_iterations (ls_stats st))
          = num_iterations (ls_stats st) + 1) as E.
  { unfold uint32_incr. apply Z.mod_small.
    unfold is_uint32 in hi_uint32. lia. }
  rewrite E. split; [split|reflexivity]; [|lia].
  destruct (loop_body_budget st) as [-> | (eps & eta & ->)];
    [exact HT | apply required_bounds].
Qed.

Lemma budget_inv_run (fuel : nat) :
  forall st, budget_inv lo hi st -> budget_inv lo hi (run fuel st).
Proof.
  induction fuel as [|fuel IH]; intros st Hst; cbn [sampling_loop].
  - exact Hst.
  - destruct (loop_cond st) eqn:Hc; [|exact Hst].
    apply IH, budget_inv_step; assumption.
Qed.

(** With fuel for every value the counter can still take, the loop has
    ended when [run] returns. *)
Lemma sampling_loop_exits (fuel : nat) :
  forall st,
    budget_inv lo hi st ->
    hi - num_iterations (ls_stats st) <= Z.of_nat fuel ->
    loop_cond (run fuel st) = false.
Proof.
  induction fuel as [|fuel IH]; intros st Hst Hfuel; cbn [sampling_loop].
  - unfold loop_cond. apply Z.ltb_ge. destruct Hst as [HT Hit]. lia.
  - destruct (loop_cond st) eqn:Hc; [|exact Hc].
    destruct (budget_inv_step st Hst Hc) as [Hinv Hit].
    apply IH; [exact Hinv | lia].
Qed.

(** Once the loop has ended, more fuel changes nothing. *)
Lemma sampling_loop_stable (fuel extra : nat) :
  forall st,
    loop_cond (run fuel st) = false ->
    run (fuel + extra) st = run fuel st.
Proof.
  induction fuel as [|fuel IH]; intros st Hend; cbn [sampling_loop plus] in *.
  - destruct extra; cbn [sampling_loop]; [reflexivity | now rewrite Hend].
  - destruct (loop_cond st); [apply IH, Hend | reflexivity].
Qed.

End Budget.

Lemma budget_inv_init (best_model : Model) (stats : RansacStatistics) :
  is_uint32 (min_num_iterations_ options) ->
  is_uint32 (max_num_iterations_ options) ->
  min_num_iterations_ options <= max_num_iterations_ options ->
  budget_inv (min_num_iterations_ options) (max_num_iterations_ options)
    (init best_model stats).
Proof.
  unfold is_uint32, budget_inv, loop_init.
  cbn [ls_stats ls_max_num_iterations num_iterations]. lia.
Qed.

(** The fuel [EstimateModel] gives its loop is enough for all options: the
    loop has ended when the result is read. *)
Lemma EstimateModel_loop_ends (best_model : Model) (stats : RansacStatistics) :
  is_uint32 (min_num_iterations_ options) ->
  is_uint32 (max_num_iterations_ options) ->
  let st0 := init best_model stats in
  loop_cond (run (Z.to_nat (ls_max_num_iterations st0)) st0) = false.
Proof.
  intros Hmin Hmax st0.
  set (lo := Z.min (min_num_iterations_ options) (max_num_iterations_ options)).
  set (hi := Z.max (max_num_iterations_ options) (min_num_iterations_ options)).
  apply (sampling_loop_exits lo hi).
  - unfold is_uint32 in *. subst hi. lia.
  - intros eps eta. split.
    + unfold NumRequiredIterations. subst lo.
      destruct (Rle_dec eps 0); [lia|]. destruct (Rge_dec eps 1); lia.
    + apply NumRequiredIterations_upper.
  - unfold budget_inv, st0, loop_init.
    cbn [ls_stats ls_max_num_iterations num_iterations].
    unfold is_uint32 in *. subst lo hi. lia.
  - subst st0. unfold loop_init.
    cbn [ls_stats ls_max_num_iterations num_iterations].
    fold hi. unfold is_uint32 in *. lia.
Qed.

(** With enough data, [EstimateModel] returns what its sampling loop leaves. *)
Lemma EstimateModel_enough_data (best_model : Model)
    (statistics : RansacStatistics) :
  0 < min_sample_size solver <= num_data solver ->
  EstimateModel Model_default RS options solver best_model statistics
  = (let st0 := init best_model (ResetStatistics statistics) in
     let st := run (Z.to_nat (ls_max_num_iterations st0)) st0 in
     (best_num_inliers (ls_stats st), ls_best_model st, ls_stats st)).
Proof.
  intros H. unfold EstimateModel.
  replace (min_sample_size solver >? num_data solver) with false
    by (symmetry; rewrite Z.gtb_ltb; apply Z.ltb_ge; lia).
  replace (min_sample_size solver <=? 0) with false
    by (symmetry; apply Z.leb_gt; lia).
  reflexivity.
Qed.

(** C8. On a solver with [0 < min_sample_size() <= num_data()] and options
    with [min_num_iterations <= max_num_iterations], the final
    [statistics.num_iterations] lies between [min_num_iterations] and
    [max_num_iterations]; the loop has ended by then; and at every point of
    the run the budget lies in the same interval, so that it is never below
    [min_num_iterations]. *)
Theorem EstimateModel_iteration_bounds (best_model : Model)
    (statistics : RansacStatistics) :
  is_uint32 (min_num_iterations_ options) ->
  is_uint32 (max_num_iterations_ options) ->
  0 < min_sample_size solver <= num_data solver ->
  min_num_iterations_ options <= max_num_iterations_ options ->
  let result :=
    EstimateModel Model_default RS options solver best_model statistics in
  let st0 := init best_model (ResetStatistics statistics) in
  min_num_iterations_ options <= num_iterations (snd result)
    <= max_num_iterations_ options /\
  snd result = ls_stats (run (Z.to_nat (ls_max_num_iterations st0)) st0) /\
  loop_cond (run (Z.to_nat (ls_max_num_iterations st0)) st0) = false /\
  (forall iterations : nat,
      min_num_iterations_ options
      <= ls_max_num_iterations (run iterations st0)
      <= max_num_iterations_ options).
Proof.
  intros Hmin Hmax Hdata Hle result st0.
  assert (Hinit := budget_inv_init best_model (ResetStatistics statistics)
                     Hmin Hmax Hle).
  fold st0 in Hinit.
  assert (Hreq := fun eps eta =>
            NumRequiredIterations_clamped eps eta (min_sample_size solver)
              _ _ Hle).
  assert (Hend := EstimateModel_loop_ends best_model
                    (ResetStatistics statistics) Hmin Hmax).
  cbv zeta in Hend. fold st0 in Hend.
  assert (snd result
          = ls_stats (run (Z.to_nat (ls_max_num_iterations st0)) st0)) as E.
  { subst result. now rewrite EstimateModel_enough_data. }
  split; [|split; [exact E | split; [exact Hend|] ] ].
  - rewrite E.
    destruct (budget_inv_run _ _ Hmax Hreq
                (Z.to_nat (ls_max_num_iterations st0)) st0 Hinit)
      as [HT Hit].
    unfold loop_cond in Hend. apply Z.ltb_ge in Hend. lia.
  - intros k. apply (budget_inv_run _ _ Hmax Hreq k st0 Hinit).
Qed.

(** C6. When [min_sample_size() > num_data()] or [min_sample_size() <= 0],
    [EstimateModel] returns [0] at once, leaves [*best_model] as it was and
    leaves the statistics reset: [num_iterations = 0],
    [best_num_inliers = 0], [inlier_ratio = 0] and no inlier indices. *)
Theorem EstimateModel_insufficient_data (best_model : Model)
    (statistics : RansacStatistics) :
  min_sample_size solver > num_data solver \/ min_sample_size solver <= 0 ->
  let result :=
    EstimateModel Model_default RS options solver best_model statistics in
  fst (fst result) = 0 /\
  snd (fst result) = best_model /\
  num_iterations (snd result) = 0 /\
  best_num_inliers (snd result) = 0 /\
  inlier_ratio (snd result) = 0%R /\
  inlier_indices (snd result) = [].
Proof.
  intros H result. subst result. unfold EstimateModel.
  assert ((min_sample_size solver >? num_data solver)
          || (min_sample_size solver <=? 0) = true) as ->.
  { apply orb_true_iff. rewrite Z.gtb_ltb, Z.ltb_lt, Z.leb_le. lia. }
  cbn. repeat split; reflexivity.
Qed.

(** C10. The return value and the final statistics (and [*best_model]) are
    the same whatever [*statistics] holds on entry. *)
Theorem EstimateModel_ignores_initial_statistics (best_model : Model)
    (statistics1 statistics2 : RansacStatistics) :
  EstimateModel Model_default RS options solver best_model statistics1
  = EstimateModel Model_default RS options solver best_model statistics2.
Proof.
  unfold EstimateModel.
  change (ResetStatistics statistics1) with (ResetStatistics statistics2).
  reflexivity.
Qed.

(** *** Which model an iteration stores *)

(** After an iteration [*best_model] is what it was before or the best
    minimal model; the model [LocalOptimization] returns is never stored. *)
Lemma loop_body_best_model (st : LoopState (Model:=Model) RS) :
  ls_best_model (body st) = ls_best_model st \/
  ls_best_model (body st) = ls_best_minimal_model (body st).
Proof.
  unfold loop_body.
  destruct (Sample RS _ _) as [sampler minimal_sample].
  destruct (MinimalSolver solver _ _) as [k estimated_models].
  destruct (k <=? 0); [now left|].
  destruct (GetBestEstimatedModelId _ _ _ _) as [best_local_score id].
  destruct (Rlt_dec _ _); [|now left].
  destruct (LocalOptimization _ _ _ _ _ _) as [score_refined refined].
  unfold UpdateBestModel.
  destruct (Rlt_dec score_refined (best_model_score (ls_stats st)));
    destruct (GetInliers _ _ _ _) as [num_inliers v];
    cbn [ls_best_model ls_best_minimal_model]; [now right | now left].
Qed.

(** *** Runs in which no candidate improves on the initial state *)

Lemma untouched_body (best_model : Model) (st : LoopState (Model:=Model) RS) :
  no_improvement -> untouched best_model st -> untouched best_model (body st).
Proof.
  intros Hnever Hst. unfold loop_body.
  destruct (Sample RS _ _) as [sampler minimal_sample].
  specialize (Hnever minimal_sample (ls_estimated_models st)).
  cbv zeta in Hnever.
  destruct (MinimalSolver solver _ _) as [k estimated_models].
  cbn [fst snd] in Hnever.
  destruct (k <=? 0) eqn:Hk; [exact Hst|].
  apply Z.leb_gt in Hk.
  destruct Hnever as [Hle | Hscore]; [lia|].
  destruct (GetBestEstimatedModelId _ _ _ _) as [best_local_score id].
  cbn [fst] in Hscore.
  destruct Hst as (Hbm & Hmin & Hrest). rewrite Hmin.
  destruct (Rlt_dec best_local_score DBL_MAX); [contradiction|].
  unfold untouched. cbn [ls_best_model ls_best_min_model_score ls_stats].
  auto.
Qed.

Lemma untouched_run (best_model : Model) (fuel : nat) :
  no_improvement ->
  forall st, untouched best_model st -> untouched best_model (run fuel st).
Proof.
  intros Hnever. induction fuel as [|fuel IH]; intros st Hst;
    cbn [sampling_loop]; [exact Hst|].
  destruct (loop_cond st); [|exact Hst].
  apply IH. apply (untouched_body best_model st Hnever) in Hst.
  destruct Hst as (H1 & H2 & H3 & H4 & H5 & H6).
  unfold untouched, loop_incr.
  cbn [ls_best_model ls_best_min_model_score ls_stats best_num_inliers
       best_model_score inlier_ratio inlier_indices].
  auto 10.
Qed.

(** What [EstimateModel] returns when no candidate ever improves. *)
Lemma EstimateModel_untouched (best_model : Model)
    (statistics : RansacStatistics) :
  no_improvement ->
  let result :=
    EstimateModel Model_default RS options solver best_model statistics in
  fst (fst result) = 0 /\
  snd (fst result) = best_model /\
  best_num_inliers (snd result) = 0 /\
  best_model_score (snd result) = DBL_MAX /\
  inlier_ratio (snd result) = 0%R /\
  inlier_indices (snd result) = [].
Proof.
  intros Hnever result. subst result. unfold EstimateModel.
  destruct ((min_sample_size solver >? num_data solver)
            || (min_sample_size solver <=? 0)).
  - cbn. repeat split; reflexivity.
  - cbn [fst snd].
    set (st0 := init best_model (ResetStatistics statistics)).
    assert (untouched best_model st0) as H0.
    { unfold untouched, st0, loop_init. cbn. repeat split; reflexivity. }
    destruct (untouched_run best_model
                (Z.to_nat (ls_max_num_iterations st0)) Hnever st0 H0)
      as (H1 & H2 & H3 & H4 & H5 & H6).
    auto 10.
Qed.

End Driver.

(** ** Runs in which no iteration has an improving candidate *)

Section RunsWithoutImprovement.

Context {Model : Type}.
Variable Model_default : Model.
Variable RS : RandomSource.
Variable options : LORansacOptions.
Variable solver : Solver Model.

Local Abbreviation body := (loop_body Model_default RS options solver).
Local Abbreviation run := (sampling_loop Model_default RS options solver).
Local Abbreviation init := (loop_init Model_default RS options solver).
Local Abbreviation step := (loop_step Model_default RS options solver).
Local Abbreviation improves :=
  (body_improves Model_default RS options solver).

(** One more iteration of the run is one more turn of the loop. *)
Lemma sampling_loop_succ (iterations : nat) :
  forall st, run (Datatypes.S iterations) st = step (run iterations st).
Proof.
  induction iterations as [|k IH]; intros st.
  - reflexivity.
  - change (run (Datatypes.S (Datatypes.S k)) st)
      with (if loop_cond st
            then run (Datatypes.S k) (loop_incr (body st)) else st).
    change (run (Datatypes.S k) st)
      with (if loop_cond st then run k (loop_incr (body st)) else st).
    destruct (loop_cond st) eqn:Hc.
    + apply IH.
    + unfold loop_step. now rewrite Hc.
Qed.

Lemma sampling_loop_ended (iterations : nat) (st : LoopState (Model:=Model) RS) :
  loop_cond st = false -> run iterations st = st.
Proof.
  intros Hc. destruct iterations; cbn [sampling_loop];
    [reflexivity | now rewrite Hc].
Qed.

(** An iteration whose candidate does not improve changes neither
    [*best_model] nor the statistics (the counter apart) nor the budget. *)
Lemma body_without_improvement (best_model : Model)
    (st : LoopState (Model:=Model) RS) :
  untouched best_model st ->
  improves st = false ->
  untouched best_model (loop_incr (body st)) /\
  ls_max_num_iterations (loop_incr (body st)) = ls_max_num_iterations st.
Proof.
  intros Hst Himp. unfold body_improves in Himp. unfold loop_body.
  destruct (Sample RS _ _) as [sampler minimal_sample].
  destruct (MinimalSolver solver _ _) as [k estimated_models].
  destruct (k <=? 0); [split; [exact Hst | reflexivity] |].
  destruct (GetBestEstimatedModelId _ _ _ _) as [best_local_score id].
  destruct (Rlt_dec _ _); [discriminate|].
  split; [exact Hst | reflexivity].
Qed.

Lemma run_without_improvement (best_model : Model)
    (st0 : LoopState (Model:=Model) RS) :
  untouched best_model st0 ->
  run_never_improves Model_default RS options solver st0 ->
  forall iterations,
    (iterations <= Z.to_nat (ls_max_num_iterations st0))%nat ->
    untouched best_model (run iterations st0) /\
    ls_max_num_iterations (run iterations st0) = ls_max_num_iterations st0.
Proof.
  intros H0 Hnever k. induction k as [|k IH]; intros Hk.
  - split; [exact H0 | reflexivity].
  - destruct IH as [IHu IHb]; [lia|].
    rewrite sampling_loop_succ. unfold loop_step.
    assert (k < Z.to_nat (ls_max_num_iterations st0))%nat as Hlt by lia.
    specialize (Hnever k Hlt). cbv zeta in Hnever.
    destruct (loop_cond (run k st0)); [|split; assumption].
    destruct (body_without_improvement best_model (run k st0) IHu
                (Hnever eq_refl)) as [Hu Hb].
    split; [exact Hu | now rewrite Hb].
Qed.

Lemma untouched_init (best_model : Model) (statistics : RansacStatistics) :
  untouched best_model (init best_model (ResetStatistics statistics)).
Proof.
  unfold untouched, loop_init. cbn. repeat split; reflexivity.
Qed.

(** A minimal solver that could never produce an improving candidate
    gives runs without improvement. *)
Lemma never_improves_run (st0 : LoopState (Model:=Model) RS) :
  never_improves Model_default options solver ->
  ls_best_min_model_score st0 = DBL_MAX ->
  run_never_improves Model_default RS options solver st0.
Proof.
  intros Hnever H0.
  assert (forall k, ls_best_min_model_score (run k st0) = DBL_MAX
                    /\ (loop_cond (run k st0) = true ->
                        improves (run k st0) = false)) as H.
  { intros k. induction k as [|k [IHs IHi] ].
    - split; [exact H0|]. intros _. cbn [sampling_loop].
      unfold body_improves.
      destruct (Sample RS _ _) as [sampler minimal_sample].
      specialize (Hnever minimal_sample (ls_estimated_models st0)).
      cbv zeta in Hnever.
      destruct (MinimalSolver solver _ _) as [n models].
      cbn [fst snd] in Hnever.
      destruct (n <=? 0) eqn:Hn; [reflexivity|]. apply Z.leb_gt in Hn.
      destruct Hnever as [Hle | Hs]; [lia|].
      destruct (GetBestEstimatedModelId _ _ _ _) as [s id].
      cbn [fst] in Hs. rewrite H0.
      destruct (Rlt_dec s DBL_MAX); [contradiction | reflexivity].
    - assert (ls_best_min_model_score (run (Datatypes.S k) st0) = DBL_MAX)
        as Hs.
      { rewrite sampling_loop_succ. unfold loop_step.
        destruct (loop_cond (run k st0)); [|exact IHs].
        specialize (IHi eq_refl). unfold body_improves in IHi.
        unfold loop_body.
        destruct (Sample RS _ _) as [sampler minimal_sample].
        destruct (MinimalSolver solver _ _) as [n models].
        destruct (n <=? 0); [exact IHs|].
        destruct (GetBestEstimatedModelId _ _ _ _) as [s id].
        destruct (Rlt_dec _ _); [discriminate | exact IHs]. }
      split; [exact Hs|]. intros _.
      unfold body_improves.
      destruct (Sample RS _ _) as [sampler minimal_sample].
      specialize (Hnever minimal_sample
                    (ls_estimated_models (run (Datatypes.S k) st0))).
      cbv zeta in Hnever.
      destruct (MinimalSolver solver _ _) as [n models].
      cbn [fst snd] in Hnever.
      destruct (n <=? 0) eqn:Hn; [reflexivity|]. apply Z.leb_gt in Hn.
      destruct Hnever as [Hle | Hsc]; [lia|].
      destruct (GetBestEstimatedModelId _ _ _ _) as [s id].
      cbn [fst] in Hsc. rewrite Hs.
      destruct (Rlt_dec s DBL_MAX); [contradiction | reflexivity]. }
  intros k _. apply H.
Qed.

(** C5 (as the code has it). When no iteration of the run has a candidate
    that improves on the initial state, for instance because
    [MinimalSolver] returns [0] in every iteration, [EstimateModel] returns
    [0], leaves [*best_model] exactly as the caller passed it
    (default-constructed only if the caller passed it so), and leaves
    [best_num_inliers = 0] and
    [best_model_score = std::numeric_limits<double>::max()], the largest
    finite double, which is below [2^1024]. *)
Theorem EstimateModel_no_improvement (best_model : Model)
    (statistics : RansacStatistics) :
  run_never_improves Model_default RS options solver
    (init best_model (ResetStatistics statistics)) ->
  let result :=
    EstimateModel Model_default RS options solver best_model statistics in
  fst (fst result) = 0 /\
  snd (fst result) = best_model /\
  best_num_inliers (snd result) = 0 /\
  best_model_score (snd result) = DBL_MAX /\
  (DBL_MAX < 2 ^ 1024)%R.
Proof.
  intros Hnever result. subst result. unfold EstimateModel.
  destruct ((min_sample_size solver >? num_data solver)
            || (min_sample_size solver <=? 0)).
  - cbn. repeat split; try reflexivity. apply DBL_MAX_finite.
  - cbn [fst snd].
    set (st0 := init best_model (ResetStatistics statistics)) in *.
    destruct (run_without_improvement best_model st0
                (untouched_init best_model statistics) Hnever
                (Z.to_nat (ls_max_num_iterations st0)) (le_n _))
      as [(H1 & H2 & H3 & H4 & H5 & H6) _].
    repeat split; try assumption. apply DBL_MAX_finite.
Qed.

End RunsWithoutImprovement.

(** ** Concrete runs *)

(** Deciding the comparisons of a run on concrete data. *)
Lemma Rlt_dec_true {A : Type} (a b : R) (x y : A) :
  (a < b)%R -> (if Rlt_dec a b then x else y) = x.
Proof. intros H. destruct (Rlt_dec a b); [reflexivity | contradiction]. Qed.

Lemma Rlt_dec_false {A : Type} (a b : R) (x y : A) :
  ~ (a < b)%R -> (if Rlt_dec a b then x else y) = y.
Proof. intros H. destruct (Rlt_dec a b); [contradiction | reflexivity]. Qed.

Lemma DBL_MAX_gt_1000 : (1000 < DBL_MAX)%R.
Proof.
  pose proof DBL_MAX_large as H.
  assert (2 ^ 10 <= 2 ^ 1023)%R as Hp by (apply Rle_pow; [lra | lia]).
  assert (2 ^ 10 = 1024)%R as E by (simpl; lra).
  lra.
Qed.

Lemma sqrt_2_gt_1 : (1 < sqrt 2)%R.
Proof. rewrite <- sqrt_1 at 1. apply sqrt_lt_1_alt. lra. Qed.

Lemma Rle_dec_true {A : Type} (a b : R) (x y : A) :
  (a <= b)%R -> (if Rle_dec a b then x else y) = x.
Proof. intros H. destruct (Rle_dec a b); [reflexivity | contradiction]. Qed.

Lemma Rle_dec_false {A : Type} (a b : R) (x y : A) :
  ~ (a <= b)%R -> (if Rle_dec a b then x else y) = y.
Proof. intros H. destruct (Rle_dec a b); [contradiction | reflexivity]. Qed.

Lemma Rge_dec_true {A : Type} (a b : R) (x y : A) :
  (a >= b)%R -> (if Rge_dec a b then x else y) = x.
Proof. intros H. destruct (Rge_dec a b); [reflexivity | contradiction]. Qed.

Lemma Rge_dec_false {A : Type} (a b : R) (x y : A) :
  ~ (a >= b)%R -> (if Rge_dec a b then x else y) = y.
Proof. intros H. destruct (Rge_dec a b); [contradiction | reflexivity]. Qed.

(** Settles one comparison of the goal whose operands are known. *)
Ltac decide_comparison :=
  match goal with
  | |- context [Rlt_dec ?a ?b] =>
      first [ rewrite (Rlt_dec_true a b) by lra
            | rewrite (Rlt_dec_false a b) by lra ]
  | |- context [Rle_dec ?a ?b] =>
      first [ rewrite (Rle_dec_true a b) by lra
            | rewrite (Rle_dec_false a b) by lra ]
  | |- context [Rge_dec ?a ?b] =>
      first [ rewrite (Rge_dec_true a b) by lra
            | rewrite (Rge_dec_false a b) by lra ]
  end.

(** Runs the driver on concrete data: unfolds its functions and settles the
    comparisons as they become known. *)
Ltac run_concrete :=
  pose proof DBL_MAX_gt_1000; pose proof sqrt_2_gt_1;
  unfold EstimateModel, loop_init, ResetStatistics, LocalOptimization,
    lsq_refinement, lsq_pass, LeastSquaresFit, GetBestEstimatedModelId,
    GetInliers, ScoreModel, ComputeScore, std_min, UpdateBestModel,
    NumRequiredIterations, for_range;
  simpl;
  unfold loop_cond, loop_body, loop_incr, lo_step, LocalOptimization,
    lsq_refinement, lsq_pass, LeastSquaresFit, GetBestEstimatedModelId,
    GetInliers, ScoreModel, ComputeScore, std_min, UpdateBestModel,
    NumRequiredIterations, for_range;
  simpl;
  repeat (progress (repeat decide_comparison); simpl).

Lemma refining_LocalOptimization :
  LocalOptimization 0 counting_random_source one_iteration_options
    refining_solver 1 1%R = (0%R, 2).
Proof. run_concrete. f_equal. lra. Qed.

Lemma refining_ScoreModel :
  ScoreModel refining_solver 1 1%R = 1%R /\
  ScoreModel refining_solver 2 1%R = 0%R.
Proof. split; run_concrete; lra. Qed.

(** C1 (the code differs). On [refining_solver] the only iteration finds the
    minimal model [1] with score [1]; [LocalOptimization] refines it to
    model [2] with score [0], which beats the global best score.
    [EstimateModel] then stores the refined score [0] but the minimal model
    [1] in [*best_model], not the refined model [2], and computes the
    inliers of model [1]. *)
Theorem EstimateModel_stores_minimal_model :
  let result :=
    EstimateModel 0 counting_random_source one_iteration_options
      refining_solver 0 zero_statistics in
  LocalOptimization 0 counting_random_source one_iteration_options
    refining_solver 1 1%R = (0%R, 2) /\
  snd (fst result) = 1 /\
  best_model_score (snd result) = 0%R /\
  ScoreModel refining_solver (snd (fst result)) 1%R = 1%R /\
  num_iterations (snd result) = 1 /\
  inlier_indices (snd result) = [0; 1].
Proof.
  split; [exact refining_LocalOptimization|].
  run_concrete. repeat split; try reflexivity; lra.
Qed.


Lemma degenerate_never_improves (options : LORansacOptions) :
  never_improves 0 options degenerate_solver.
Proof. intros sample models. left. cbn. lia. Qed.

(** C5 (refuted as stated). [degenerate_solver] never returns a model.
    Called with the default options and with [*best_model = 7],
    [EstimateModel] returns [7] in [*best_model], which is not the
    default-constructed model [0]; and the score it reports is a finite
    number, below [2^1024]. *)
Lemma EstimateModel_keeps_callers_model :
  let result :=
    EstimateModel 0 counting_random_source LORansacOptions_default
      degenerate_solver 7 zero_statistics in
  snd (fst result) <> 0 /\
  (best_model_score (snd result) < 2 ^ 1024)%R.
Proof.
  destruct (EstimateModel_untouched 0 counting_random_source
              LORansacOptions_default degenerate_solver 7 zero_statistics
              (degenerate_never_improves _))
    as (_ & Hmodel & _ & Hscore & _).
  cbv zeta. rewrite Hmodel, Hscore. split; [discriminate|].
  apply DBL_MAX_finite.
Qed.

(** ** The theorems at concrete inputs *)


Lemma round_down_monotone : monotone round_down.
Proof.
  intros x y Hxy. unfold round_down. apply IZR_le, Zfloor_le, Hxy.
Qed.

Lemma round_down_0 : round_down 0%R = 0%R.
Proof. unfold round_down. now rewrite ZfloorZ. Qed.

(** The score bounds for model [1] of [refining_solver] under threshold
    [1], with sums rounded down to integers. *)
Lemma ScoreModel_bounds_refining :
  monotone round_down /\
  round_down 0%R = 0%R /\
  0 <= num_data refining_solver /\
  (0 <= 1)%R /\
  (forall i, 0 <= i < num_data refining_solver ->
             (0 <= EvaluateModelOnPoint refining_solver 1%Z i)%R) /\
  (0 <= ScoreModel_rounded round_down refining_solver 1%Z 1
     <= accumulated round_down 1 (Z.to_nat (num_data refining_solver)))%R /\
  ScoreModel_rounded exact refining_solver 1%Z 1%R
  = ScoreModel refining_solver 1%Z 1%R /\
  accumulated exact 1%R (Z.to_nat (num_data refining_solver))
  = (IZR (num_data refining_solver) * 1)%R /\
  (0 <= ScoreModel refining_solver 1%Z 1
     <= IZR (num_data refining_solver) * 1)%R.
Proof.
  assert (0 <= num_data refining_solver) as HN by (cbn; lia).
  assert (0 <= 1)%R as Ht by lra.
  assert (forall i, 0 <= i < num_data refining_solver ->
                    (0 <= EvaluateModelOnPoint refining_solver 1%Z i)%R)
    as Hres
    by (intros i _; cbn; lra).
  split; [exact round_down_monotone|]. split; [exact round_down_0|].
  split; [exact HN|]. split; [exact Ht|]. split; [exact Hres|].
  apply (ScoreModel_bounds round_down refining_solver 1 1%R
           round_down_monotone round_down_0 HN Ht Hres).
Defined.

(** C9 (refuted as stated). In binary64, for [N = 6] points with squared
    residual [1.0] and the threshold [tau^2 = 0.3] (the double
    [5404319552844595 * 2^-54]), [ScoreModel] returns
    [8106479329266893 * 2^-52 = 1.8000000000000003], which is above
    [6 * tau^2], computed in binary64 or exactly.  And in exact arithmetic,
    for the three points of [degenerate_solver] with squared residual [0]
    and the threshold [-1], the score is [-3], below [0]. *)
Lemma ScoreModel_exceeds_bound :
  let tau2 := 0x1.3333333333333p-2%float in
  let score := ScoreModel_binary64 6 (fun _ => 1%float) tau2 in
  PrimFloat.ltb (PrimFloat.mul 6%float tau2) score = true /\
  Prim2SF score = S754_finite false 8106479329266893 (-52) /\
  Prim2SF tau2 = S754_finite false 5404319552844595 (-54) /\
  6 * (5404319552844595 * 2 ^ 52) < 8106479329266893 * 2 ^ 54 /\
  (forall i, (0 <= EvaluateModelOnPoint degenerate_solver 0%Z i)%R) /\
  ~ (0 <= ScoreModel degenerate_solver 0%Z (-1)
       <= IZR (num_data degenerate_solver) * -1)%R.
Proof.
  cbv zeta.
  split; [vm_compute; reflexivity|]. split; [vm_compute; reflexivity|].
  split; [vm_compute; reflexivity|]. split; [vm_compute; reflexivity|].
  split; [intros i; cbn; lra|].
  assert (ScoreModel degenerate_solver 0 (-1) = (-3)%R) as ->.
  { run_concrete. lra. }
  lra.
Qed.

(** With [counting_random_source], every sample of the run on
    [fussy_solver] is [[0]], for which the solver returns no model. *)
Lemma fussy_body (options : LORansacOptions)
    (st : LoopState (Model:=Z) counting_random_source) :
  ls_minimal_sample st = [0] ->
  body_improves 0 counting_random_source options fussy_solver st = false /\
  ls_minimal_sample
    (loop_step 0 counting_random_source options fussy_solver st) = [0].
Proof.
  intros H. unfold body_improves, loop_step, loop_body, loop_incr.
  cbn [Sample counting_random_source]. rewrite H.
  cbn [length Zseq MinimalSolver fussy_solver Z.leb Z.compare].
  split; [reflexivity|].
  destruct (loop_cond st); [reflexivity | exact H].
Qed.

Lemma fussy_run_never_improves (options : LORansacOptions)
    (best_model : Z) :
  run_never_improves 0 counting_random_source options fussy_solver
    (loop_init 0 counting_random_source options fussy_solver best_model
       (ResetStatistics zero_statistics)).
Proof.
  unfold run_never_improves. intros k _. cbv zeta. intros _.
  apply fussy_body. induction k as [|k IH].
  - reflexivity.
  - rewrite sampling_loop_succ. apply fussy_body, IH.
Qed.

Lemma fussy_solver_could_improve :
  ~ never_improves 0 one_iteration_options fussy_solver.
Proof.
  intros H. specialize (H [1] []). cbv zeta in H.
  destruct H as [H | H]; [cbn in H; lia|].
  apply H. run_concrete. pose proof DBL_MAX_gt_1000. lra.
Qed.

(** The run on [fussy_solver], called with [*best_model = 7]: no iteration
    has an improving candidate, although the solver has improving models
    for samples the run does not draw. *)
Lemma EstimateModel_no_improvement_fussy :
  run_never_improves 0 counting_random_source one_iteration_options
    fussy_solver
    (loop_init 0 counting_random_source one_iteration_options fussy_solver
       7 (ResetStatistics zero_statistics)) /\
  let result :=
    EstimateModel 0 counting_random_source one_iteration_options
      fussy_solver 7 zero_statistics in
  fst (fst result) = 0 /\
  snd (fst result) = 7 /\
  best_num_inliers (snd result) = 0 /\
  best_model_score (snd result) = DBL_MAX /\
  (DBL_MAX < 2 ^ 1024)%R.
Proof.
  split; [apply fussy_run_never_improves|].
  apply (EstimateModel_no_improvement 0 counting_random_source
           one_iteration_options fussy_solver 7 zero_statistics
           (fussy_run_never_improves one_iteration_options 7)).
Defined.

(** Scenario S3: one data point, samples of two. *)
Lemma EstimateModel_insufficient_data_one_point :
  (min_sample_size one_point_solver > num_data one_point_solver \/
   min_sample_size one_point_solver <= 0) /\
  let result :=
    EstimateModel 0 counting_random_source LORansacOptions_default
      one_point_solver 0 zero_statistics in
  fst (fst result) = 0 /\
  snd (fst result) = 0 /\
  num_iterations (snd result) = 0 /\
  best_num_inliers (snd result) = 0 /\
  inlier_ratio (snd result) = 0%R /\
  inlier_indices (snd result) = [].
Proof.
  split.
  - left. cbn. lia.
  - apply (EstimateModel_insufficient_data 0 counting_random_source
             LORansacOptions_default one_point_solver 0 zero_statistics).
    left. cbn. lia.
Defined.

(** The iteration bounds with the default options on [refining_solver]. *)
Lemma EstimateModel_iteration_bounds_default :
  is_uint32 (min_num_iterations_ LORansacOptions_default) /\
  is_uint32 (max_num_iterations_ LORansacOptions_default) /\
  0 < min_sample_size refining_solver <= num_data refining_solver /\
  min_num_iterations_ LORansacOptions_default
    <= max_num_iterations_ LORansacOptions_default /\
  100 <= num_iterations
           (snd (EstimateModel 0 counting_random_source
                   LORansacOptions_default refining_solver 0
                   zero_statistics))
      <= 10000.
Proof.
  assert (is_uint32 100) as Hmin by (unfold is_uint32, UINT32_MODULUS; lia).
  assert (is_uint32 10000) as Hmax by (unfold is_uint32, UINT32_MODULUS; lia).
  assert (0 < 1 <= 2) as Hdata by lia.
  assert (100 <= 10000) as Hle by lia.
  repeat split; try assumption; try (cbn; lia);
    apply (EstimateModel_iteration_bounds 0 counting_random_source
             LORansacOptions_default refining_solver 0 zero_statistics
             Hmin Hmax Hdata Hle).
Defined.

(** * Further properties of the functions *)

(** ** Loops with an invariant that follows the index *)

Lemma for_loop_indexed {S : Type} (P : Z -> S -> Prop) (body : Z -> S -> S)
    (n : nat) :
  forall i s,
    P i s ->
    (forall j t, i <= j < i + Z.of_nat n -> P j t -> P (j + 1) (body j t)) ->
    P (i + Z.of_nat n) (for_loop n i body s).
Proof.
  induction n as [|n IH]; intros i s Hs Hstep.
  - cbn [for_loop]. now rewrite Z.add_0_r.
  - cbn [for_loop].
    replace (i + Z.of_nat (Datatypes.S n)) with (i + 1 + Z.of_nat n) by lia.
    apply IH.
    + apply Hstep; [lia | exact Hs].
    + intros j t Hj. apply Hstep. lia.
Qed.

(** ** The best of the estimated models *)

Section BestEstimatedModel.

Context {Model : Type}.
Variable Model_default : Model.
Variable solver : Solver Model.
Variable models : list Model.
Variable thr : R.

Local Abbreviation prefix_inv :=
  (best_of_prefix Model_default solver models thr).
Local Abbreviation score := (score_at Model_default solver models thr).

Lemma best_of_prefix_start : prefix_inv 0 (DBL_MAX, 0).
Proof.
  unfold best_of_prefix. cbn [fst snd]. repeat split; try lra; try lia.
Qed.

Lemma best_of_prefix_step (k : Z) (r : R * Z) :
  0 <= k ->
  prefix_inv k r ->
  prefix_inv (k + 1)
    (let '(best_score, best_model_id) := r in
     if Rlt_dec (score k) best_score then (score k, k)
     else (best_score, best_model_id)).
Proof.
  intros Hk. destruct r as [bs id]. unfold best_of_prefix. cbn [fst snd].
  intros (Hmax & Hall & Hbest & Hnone).
  destruct (Rlt_dec (score k) bs) as [Hlt | Hge]; cbn [fst snd].
  - split; [lra|]. split; [|split].
    + intros j Hj. destruct (Z.eq_dec j k) as [-> | Hne]; [lra|].
      specialize (Hall j ltac:(lia)). lra.
    + intros _. split; [lia|]. split; [reflexivity|].
      intros j Hj. specialize (Hall j ltac:(lia)). lra.
    + intros Hn. exfalso. lra.
  - split; [exact Hmax|]. split; [|split].
    + intros j Hj. destruct (Z.eq_dec j k) as [-> | Hne]; [lra|].
      apply Hall. lia.
    + intros Hb. destruct (Hbest Hb) as (Hid & Hsc & Hfirst).
      split; [lia|]. split; assumption.
    + exact Hnone.
Qed.

Lemma GetBestEstimatedModelId_prefix :
  prefix_inv (Z.of_nat (length models))
    (GetBestEstimatedModelId Model_default solver models thr).
Proof.
  unfold GetBestEstimatedModelId, for_range. rewrite Z.sub_0_r, Nat2Z.id.
  apply (for_loop_indexed (fun k r => 0 <= k /\ prefix_inv k r)
           _ (length models) 0 (DBL_MAX, 0)).
  - split; [lia | apply best_of_prefix_start].
  - intros j [bs id] Hj [Hk Hinv]. split; [lia|].
    apply (best_of_prefix_step j (bs, id) Hk Hinv).
Qed.

(** X1. [GetBestEstimatedModelId] returns a score that is at most the
    initial value and at most the score of every model of the vector.  When
    the returned score is below the initial value, the returned index lies
    within the vector, the model at that index has the returned score, and
    every model before it has a strictly larger score (the first of the
    best models wins).  Otherwise, in particular for an empty vector, the
    function returns its initial values. *)
Theorem GetBestEstimatedModelId_spec :
  let r := GetBestEstimatedModelId Model_default solver models thr in
  let n := Z.of_nat (length models) in
  (fst r <= DBL_MAX)%R /\
  (forall j, 0 <= j < n ->
             (fst r
              <= ScoreModel solver (nth (Z.to_nat j) models Model_default)
                   thr)%R) /\
  ((fst r < DBL_MAX)%R ->
   0 <= snd r < n /\
   ScoreModel solver (nth (Z.to_nat (snd r)) models Model_default) thr
   = fst r /\
   forall j, 0 <= j < snd r ->
             (fst r
              < ScoreModel solver (nth (Z.to_nat j) models Model_default)
                  thr)%R) /\
  (~ (fst r < DBL_MAX)%R -> r = (DBL_MAX, 0)).
Proof.
  cbv zeta.
  destruct GetBestEstimatedModelId_prefix as (Hmax & Hall & Hbest & Hnone).
  split; [exact Hmax|]. split; [exact Hall|].
  split; [exact Hbest | exact Hnone].
Qed.

End BestEstimatedModel.

(** ** Scores, inliers and thresholds *)

Section ScoresAndInliers.

Context {Model : Type}.
Variable solver : Solver Model.
Variable model : Model.

Local Abbreviation err := (EvaluateModelOnPoint solver model).

Lemma ComputeScore_contribution (thr : R) (i : Z) :
  ComputeScore (err i) thr
  = if is_inlier solver model thr i then err i else thr.
Proof.
  change (is_inlier solver model thr i)
    with (if Rlt_dec (err i) thr then true else false).
  unfold ComputeScore, std_min.
  destruct (Rlt_dec (err i) thr), (Rlt_dec thr (err i)); lra.
Qed.

Lemma collected_inlier (thr : R) (i : Z) :
  0 <= i < num_data solver ->
  existsb (Z.eqb i) (inliers_of solver model thr)
  = is_inlier solver model thr i.
Proof.
  intros Hi. destruct (is_inlier solver model thr i) eqn:E.
  - apply existsb_exists. exists i. split; [|apply Z.eqb_refl].
    apply inliers_of_In. split; [exact Hi|]. now apply is_inlier_iff.
  - apply Bool.not_true_is_false. intros H.
    apply existsb_exists in H. destruct H as [j [Hj Heq] ].
    apply Z.eqb_eq in Heq. subst j.
    apply inliers_of_In in Hj. destruct Hj as [_ Hlt].
    apply is_inlier_iff in Hlt. congruence.
Qed.

Lemma fold_left_ext_in {A B : Type} (f g : A -> B -> A) (l : list B) :
  (forall a x, In x l -> f a x = g a x) ->
  forall a, fold_left f l a = fold_left g l a.
Proof.
  induction l as [|x l IH]; intros H a; cbn [fold_left]; [reflexivity|].
  rewrite (H a x (or_introl eq_refl)). apply IH.
  intros b y Hy. apply H. now right.
Qed.

Lemma fold_left_constant {A B : Type} (f : A -> A) (l : list B) :
  forall a, fold_left (fun a _ => f a) l a = Nat.iter (length l) f a.
Proof.
  induction l as [|x l IH]; intros a; cbn [fold_left length];
    [reflexivity|].
  rewrite IH. symmetry. apply Nat.iter_succ_r.
Qed.

(** X2. The MSAC score of a model is the sum, taken in the order of the
    points with every addition rounded as the arithmetic of the score
    rounds it, of one term per point: the squared residual of the point if
    [GetInliers] collects it under the same threshold, the threshold
    otherwise.  For a model without inliers it is the threshold added to
    [0] once per point.  (Squared residuals are numbers here, never NaN.) *)
Theorem ScoreModel_inliers_outliers (rnd : R -> R) (thr : R) :
  let inliers := vector_of (snd (GetInliers solver model thr (Some []))) in
  let num_inliers := fst (GetInliers solver model thr None) in
  let term i := if existsb (Z.eqb i) inliers then err i else thr in
  let points := Zseq 0 (Z.to_nat (num_data solver)) in
  ScoreModel_rounded rnd solver model thr
  = fold_left (fun score i => rnd (score + term i)%R) points 0%R /\
  ScoreModel_rounded exact solver model thr = ScoreModel solver model thr /\
  (num_inliers = 0 ->
   ScoreModel_rounded rnd solver model thr
   = accumulated rnd thr (Z.to_nat (num_data solver))).
Proof.
  cbv zeta. rewrite GetInliers_collect, GetInliers_count.
  cbn [fst snd vector_of].
  assert (ScoreModel_rounded rnd solver model thr
          = fold_left
              (fun score i =>
                 rnd (score
                      + (if existsb (Z.eqb i) (inliers_of solver model thr)
                         then err i else thr))%R)
              (Zseq 0 (Z.to_nat (num_data solver))) 0%R) as Hsum.
  { unfold ScoreModel_rounded. rewrite for_range_fold, Z.sub_0_r.
    apply fold_left_ext_in. intros score i Hi.
    apply Zseq_In in Hi.
    rewrite collected_inlier, ComputeScore_contribution by lia.
    reflexivity. }
  split; [exact Hsum | split; [reflexivity|] ].
  intros Hnone.
  assert (inliers_of solver model thr = []) as Hempty.
  { destruct (inliers_of solver model thr); [reflexivity|].
    cbn [length] in Hnone. lia. }
  rewrite Hsum, Hempty. cbn [existsb].
  rewrite fold_left_constant, Zseq_length. reflexivity.
Qed.

Lemma filter_length_le {A : Type} (p q : A -> bool) (l : list A) :
  (forall x, In x l -> p x = true -> q x = true) ->
  (length (filter p l) <= length (filter q l))%nat.
Proof.
  induction l as [|x l IH]; intros H; cbn [filter length]; [lia|].
  assert (length (filter p l) <= length (filter q l))%nat as Hl.
  { apply IH. intros y Hy. apply H. now right. }
  destruct (p x) eqn:Hp.
  - rewrite (H x (or_introl eq_refl) Hp). cbn [length]. lia.
  - destruct (q x); cbn [length]; lia.
Qed.

Lemma is_inlier_mono (thr1 thr2 : R) (i : Z) :
  (thr1 <= thr2)%R ->
  is_inlier solver model thr1 i = true ->
  is_inlier solver model thr2 i = true.
Proof.
  intros Hle. rewrite !is_inlier_iff. lra.
Qed.

(** X3. A larger threshold keeps every inlier: the vector collected under
    the smaller threshold is contained in the one collected under the
    larger, and the count does not decrease. *)
Theorem GetInliers_threshold_monotone (thr1 thr2 : R)
    (out : option (list Z)) :
  (thr1 <= thr2)%R ->
  incl (vector_of (snd (GetInliers solver model thr1 (Some []))))
       (vector_of (snd (GetInliers solver model thr2 (Some [])))) /\
  fst (GetInliers solver model thr1 out)
  <= fst (GetInliers solver model thr2 out).
Proof.
  intros Hle. split.
  - rewrite !GetInliers_collect. cbn [snd vector_of].
    intros i. rewrite !inliers_of_In. intros [Hi Hlt]. split; [exact Hi | lra].
  - assert (length (inliers_of solver model thr1)
            <= length (inliers_of solver model thr2))%nat as Hlen.
    { unfold inliers_of. apply filter_length_le.
      intros i _. now apply is_inlier_mono. }
    destruct out as [old|].
    + rewrite !GetInliers_collect. cbn [fst]. lia.
    + rewrite !GetInliers_count. cbn [fst]. lia.
Qed.

Lemma score_fold_mono (thr1 thr2 : R) (l : list Z) :
  (thr1 <= thr2)%R ->
  forall s1 s2,
    (s1 <= s2)%R ->
    (fold_left (fun score i => (score + ComputeScore (err i) thr1)%R) l s1
     <= fold_left (fun score i => (score + ComputeScore (err i) thr2)%R) l
          s2)%R.
Proof.
  intros Hle. induction l as [|i l IH]; intros s1 s2 Hs; cbn [fold_left].
  - exact Hs.
  - apply IH. unfold ComputeScore, std_min.
    destruct (Rlt_dec thr1 (err i)), (Rlt_dec thr2 (err i)); lra.
Qed.

(** X4. The MSAC score does not decrease when the threshold grows: for
    thresholds [thr1 <= thr2] the score under [thr1] is at most the score
    under [thr2]. *)
Theorem ScoreModel_threshold_monotone (thr1 thr2 : R) :
  (thr1 <= thr2)%R ->
  (ScoreModel solver model thr1 <= ScoreModel solver model thr2)%R.
Proof.
  intros Hle. unfold ScoreModel. rewrite !for_range_fold.
  apply score_fold_mono; [exact Hle | lra].
Qed.

End ScoresAndInliers.

(** ** What local optimization returns *)

Section LocalOptimizationResult.

Context {Model : Type}.
Variable Model_default : Model.
Variable RS : RandomSource.
Variable options : LORansacOptions.
Variable solver : Solver Model.

Local Abbreviation tau2 := (squared_inlier_threshold_ options).

(** A property of the refined best that every update with a scored model
    keeps is kept by the whole of [LocalOptimization]. *)
Section Invariant.

Variable P : R * Model -> Prop.
Hypothesis P_update :
  forall (m : Model) (best : R * Model),
    P best -> P (UpdateBestModel (ScoreModel solver m tau2) m best).

Lemma lsq_pass_keeps (upd : R) (st : Rng RS * Model * R * (R * Model)) :
  P (snd st) -> P (snd (lsq_pass RS options solver upd st)).
Proof.
  destruct st as [[[rng m] thresh] best]. cbn [snd]. intros H.
  unfold lsq_pass.
  destruct (LeastSquaresFit RS options thresh solver rng m) as [rng' m'].
  cbn [snd]. apply P_update, H.
Qed.

Lemma lsq_refinement_keeps (rng : Rng RS) (m_non_min : Model)
    (best : R * Model) :
  P best -> P (snd (lsq_refinement RS options solver rng m_non_min best)).
Proof.
  intros H. unfold lsq_refinement, for_range.
  destruct (LeastSquaresFit RS options _ solver rng m_non_min) as [rng' m'].
  apply (for_loop_invariant
           (fun st : Rng RS * Model * R * (R * Model) => P (snd st))).
  - intros _ st. apply lsq_pass_keeps.
  - exact H.
Qed.

Lemma lo_step_keeps (inliers_base : list Z) (k : Z) (st : LOState RS) :
  P (snd st) ->
  P (snd (lo_step Model_default RS options solver inliers_base k st)).
Proof.
  destruct st as [rng best]. cbn [snd]. intros H. unfold lo_step.
  destruct (RandomShuffleAndResize RS k rng inliers_base) as [rng1 sample].
  destruct (NonMinimalSolver solver sample Model_default) as [ok m_non_min].
  destruct ok; cbn [negb snd]; [|exact H].
  pose proof (lsq_refinement_keeps rng1 m_non_min
                (UpdateBestModel (ScoreModel solver m_non_min tau2)
                   m_non_min best)
                (P_update _ _ H)) as Hr.
  destruct (lsq_refinement RS options solver rng1 m_non_min _)
    as [[[rng2 m2] th2] best2].
  exact Hr.
Qed.

Lemma LocalOptimization_keeps (best_minimal_model : Model)
    (score_best_minimal_model : R) :
  P (score_best_minimal_model, best_minimal_model) ->
  P (LocalOptimization Model_default RS options solver best_minimal_model
       score_best_minimal_model).
Proof.
  intros H. unfold LocalOptimization.
  destruct (non_minimal_sample_size solver >? num_data solver); [exact H|].
  destruct (LeastSquaresFit RS options _ solver _ best_minimal_model)
    as [rng m_init].
  destruct (GetInliers solver m_init _ _) as [num_inliers_base inliers_base].
  unfold for_range.
  apply (for_loop_invariant (fun st : LOState RS => P (snd st))).
  - intros _ st. apply lo_step_keeps.
  - cbn [snd]. apply P_update, H.
Qed.

End Invariant.

(** The refined score is bounded by the input score; the form of this fact
    that the driver's invariants use. *)
Lemma LocalOptimization_le (best_minimal_model : Model)
    (score_best_minimal_model : R) :
  (fst (LocalOptimization Model_default RS options solver best_minimal_model
          score_best_minimal_model)
   <= score_best_minimal_model)%R.
Proof.
  apply (LocalOptimization_keeps
           (fun best => (fst best <= score_best_minimal_model)%R)).
  - intros m [sb mb] H. unfold UpdateBestModel. cbn [fst] in *.
    destruct (Rlt_dec _ sb); cbn [fst]; lra.
  - cbn [fst]. lra.
Qed.

(** X5. [LocalOptimization] returns its input pair unchanged or a pair with
    a strictly smaller score: a candidate that only ties with the input
    never replaces it. *)
Theorem LocalOptimization_input_or_better (best_minimal_model : Model)
    (score_best_minimal_model : R) :
  let refined :=
    LocalOptimization Model_default RS options solver best_minimal_model
      score_best_minimal_model in
  refined = (score_best_minimal_model, best_minimal_model) \/
  (fst refined < score_best_minimal_model)%R.
Proof.
  cbv zeta.
  apply (LocalOptimization_keeps
           (fun best =>
              best = (score_best_minimal_model, best_minimal_model) \/
              (fst best < score_best_minimal_model)%R)).
  - intros m [sb mb] H. unfold UpdateBestModel.
    destruct (Rlt_dec _ sb) as [Hlt | Hge]; [|exact H].
    right. cbn [fst] in *. destruct H as [E | Hb].
    + inversion E; subst. exact Hlt.
    + lra.
  - now left.
Qed.

(** X6. When the input score is the MSAC score of the input model, the
    score [LocalOptimization] returns is the MSAC score of the model it
    returns. *)
Theorem LocalOptimization_score_of_model (best_minimal_model : Model)
    (score_best_minimal_model : R) :
  score_best_minimal_model = ScoreModel solver best_minimal_model tau2 ->
  let refined :=
    LocalOptimization Model_default RS options solver best_minimal_model
      score_best_minimal_model in
  fst refined = ScoreModel solver (snd refined) tau2.
Proof.
  intros Hin. cbv zeta.
  apply (LocalOptimization_keeps
           (fun best => fst best = ScoreModel solver (snd best) tau2)).
  - intros m [sb mb] H. unfold UpdateBestModel. cbn [fst snd] in *.
    destruct (Rlt_dec _ sb); cbn [fst snd]; [reflexivity | exact H].
  - exact Hin.
Qed.

(** With the dummy non-minimal solver every LO step leaves the refined best
    as it is. *)
Lemma lo_steps_without_non_minimal_solver (inliers_base : list Z) (k : Z)
    (n : nat) :
  no_non_minimal_solver solver ->
  forall i (st : LOState RS),
    snd (for_loop n i
           (fun _ st =>
              lo_step Model_default RS options solver inliers_base k st)
           st)
    = snd st.
Proof.
  intros Hdummy. induction n as [|n IH]; intros i st; cbn [for_loop].
  - reflexivity.
  - rewrite IH. destruct st as [rng best]. unfold lo_step.
    destruct (RandomShuffleAndResize RS k rng inliers_base) as [rng1 sample].
    specialize (Hdummy sample Model_default).
    destruct (NonMinimalSolver solver sample Model_default) as [ok m].
    cbn [fst] in Hdummy. subst ok. reflexivity.
Qed.

(** X7. With the dummy non-minimal solver (one that always returns
    [false]) and enough data for a non-minimal sample, [LocalOptimization]
    comes down to a single least squares fit of the input model under the
    relaxed threshold [tau^2 * threshold_multiplier]: it returns the fitted
    model if its score beats the input score and the input otherwise,
    whatever [num_lo_steps] is. *)
Theorem LocalOptimization_without_non_minimal_solver
    (best_minimal_model : Model) (score_best_minimal_model : R) :
  no_non_minimal_solver solver ->
  non_minimal_sample_size solver <= num_data solver ->
  let m_init :=
    snd (LeastSquaresFit RS options
           (tau2 * threshold_multiplier_ options)%R solver
           (rng_seed RS (random_seed_ options)) best_minimal_model) in
  LocalOptimization Model_default RS options solver best_minimal_model
    score_best_minimal_model
  = UpdateBestModel (ScoreModel solver m_init tau2) m_init
      (score_best_minimal_model, best_minimal_model).
Proof.
  intros Hdummy Hdata. cbv zeta. unfold LocalOptimization.
  replace (non_minimal_sample_size solver >? num_data solver) with false
    by (symmetry; rewrite Z.gtb_ltb; apply Z.ltb_ge; lia).
  destruct (LeastSquaresFit RS options _ solver _ best_minimal_model)
    as [rng m_init].
  destruct (GetInliers solver m_init _ _) as [num_inliers_base inliers_base].
  unfold for_range.
  rewrite (lo_steps_without_non_minimal_solver _ _ _ Hdummy).
  reflexivity.
Qed.

(** Without least squares refinement [LeastSquaresFit] returns the model it
    was given. *)
Lemma LeastSquaresFit_without_least_squares (thresh : R) (rng : Rng RS)
    (model : Model) :
  no_least_squares solver ->
  snd (LeastSquaresFit RS options thresh solver rng model) = model.
Proof.
  intros Hid. unfold LeastSquaresFit.
  destruct (GetInliers solver model thresh _) as [n v].
  destruct (RandomShuffleAndResize RS _ rng _) as [rng' v'].
  cbn [snd]. apply Hid.
Qed.

Lemma LocalOptimization_noop (best_minimal_model : Model)
    (score_best_minimal_model : R) :
  no_non_minimal_solver solver ->
  no_least_squares solver ->
  score_best_minimal_model = ScoreModel solver best_minimal_model tau2 ->
  LocalOptimization Model_default RS options solver best_minimal_model
    score_best_minimal_model
  = (score_best_minimal_model, best_minimal_model).
Proof.
  intros Hdummy Hid Hin. unfold LocalOptimization.
  destruct (non_minimal_sample_size solver >? num_data solver);
    [reflexivity|].
  pose proof (LeastSquaresFit_without_least_squares
                (tau2 * threshold_multiplier_ options)%R
                (rng_seed RS (random_seed_ options)) best_minimal_model Hid)
    as Hfit.
  destruct (LeastSquaresFit RS options _ solver _ best_minimal_model)
    as [rng m_init].
  cbn [snd] in Hfit. subst m_init.
  destruct (GetInliers solver best_minimal_model _ _)
    as [num_inliers_base inliers_base].
  unfold for_range.
  rewrite (lo_steps_without_non_minimal_solver _ _ _ Hdummy).
  cbn [snd]. unfold UpdateBestModel. rewrite <- Hin.
  destruct (Rlt_dec score_best_minimal_model score_best_minimal_model);
    [lra | reflexivity].
Qed.

(** X8. For a solver without non-minimal solver and without least squares
    refinement (the dummies the interface allows), [LocalOptimization]
    returns the input model with its score, provided that score is the MSAC
    score of the model, as it is in [EstimateModel]. *)
Theorem LocalOptimization_without_refinement (best_minimal_model : Model)
    (score_best_minimal_model : R) :
  no_non_minimal_solver solver ->
  no_least_squares solver ->
  score_best_minimal_model = ScoreModel solver best_minimal_model tau2 ->
  LocalOptimization Model_default RS options solver best_minimal_model
    score_best_minimal_model
  = (score_best_minimal_model, best_minimal_model).
Proof.
  intros Hdummy Hid Hin.
  apply LocalOptimization_noop; assumption.
Qed.

End LocalOptimizationResult.

(** ** What the driver reports *)

Section DriverReports.

Context {Model : Type}.
Variable Model_default : Model.
Variable RS : RandomSource.
Variable options : LORansacOptions.
Variable solver : Solver Model.

Local Abbreviation body := (loop_body Model_default RS options solver).
Local Abbreviation run := (sampling_loop Model_default RS options solver).
Local Abbreviation init := (loop_init Model_default RS options solver).
Local Abbreviation tau2 := (squared_inlier_threshold_ options).
Local Abbreviation coherent := (stats_coherent options solver).

(** An invariant of the loop state that the body and the increment keep
    holds after every number of iterations. *)
Lemma sampling_loop_invariant (P : LoopState (Model:=Model) RS -> Prop) :
  (forall st, P st -> P (loop_incr (body st))) ->
  forall fuel st, P st -> P (run fuel st).
Proof.
  intros Hstep fuel. induction fuel as [|fuel IH]; intros st Hst;
    cbn [sampling_loop]; [exact Hst|].
  destruct (loop_cond st); [|exact Hst]. apply IH, Hstep, Hst.
Qed.

(** *** The inlier statistics *)

Lemma stats_coherent_step (st : LoopState (Model:=Model) RS) :
  coherent st -> coherent (loop_incr (body st)).
Proof.
  intros Hst. unfold loop_body.
  destruct (Sample RS _ _) as [sampler minimal_sample].
  destruct (MinimalSolver solver _ _) as [k estimated_models].
  destruct (k <=? 0); [exact Hst|].
  destruct (GetBestEstimatedModelId _ _ _ _) as [best_local_score id].
  destruct (Rlt_dec _ _); [|exact Hst].
  destruct (LocalOptimization _ _ _ _ _ _) as [score_refined refined].
  destruct (UpdateBestModel _ _ _) as [score best_model].
  rewrite GetInliers_collect.
  unfold stats_coherent, loop_incr.
  cbn [ls_stats ls_best_model best_num_inliers inlier_ratio inlier_indices
       best_model_score vector_of].
  repeat split. now right.
Qed.

Lemma stats_coherent_init (best_model : Model)
    (statistics : RansacStatistics) :
  coherent (init best_model (ResetStatistics statistics)).
Proof.
  unfold stats_coherent, loop_init, ResetStatistics.
  cbn [ls_stats ls_best_model best_num_inliers inlier_ratio inlier_indices
       best_model_score length].
  repeat split; [unfold Rdiv; now rewrite Rmult_0_l | now left].
Qed.

(** The state whose statistics [EstimateModel] returns: the reset state on
    the early return, the state the loop leaves otherwise. *)
Lemma EstimateModel_final_state (best_model : Model)
    (statistics : RansacStatistics) (P : LoopState (Model:=Model) RS -> Prop) :
  P (init best_model (ResetStatistics statistics)) ->
  (forall st, P st -> P (loop_incr (body st))) ->
  exists st,
    P st /\
    EstimateModel Model_default RS options solver best_model statistics
    = (best_num_inliers (ls_stats st), ls_best_model st, ls_stats st) /\
    (num_iterations (ls_stats st) = 0 \/
     0 < min_sample_size solver <= num_data solver).
Proof.
  intros Hinit Hstep. unfold EstimateModel.
  destruct ((min_sample_size solver >? num_data solver)
            || (min_sample_size solver <=? 0)) eqn:Hguard.
  - exists (init best_model (ResetStatistics statistics)).
    split; [exact Hinit|]. split; [reflexivity | now left].
  - eexists. split; [|split; [reflexivity|] ].
    + apply sampling_loop_invariant; [exact Hstep | exact Hinit].
    + right. apply orb_false_iff in Hguard. destruct Hguard as [Hgt Hle].
      rewrite Z.gtb_ltb in Hgt. apply Z.ltb_ge in Hgt.
      apply Z.leb_gt in Hle. lia.
Qed.

Lemma inliers_of_length_le (model : Model) (thr : R) :
  Z.of_nat (length (inliers_of solver model thr))
  <= Z.max 0 (num_data solver).
Proof.
  unfold inliers_of.
  pose proof (filter_length (is_inlier solver model thr)
                (Zseq 0 (Z.to_nat (num_data solver)))) as H.
  rewrite Zseq_length in H. lia.
Qed.


(** X10. The inliers [EstimateModel] reports are those of the model it
    returns: either no model was ever accepted, and then [inlier_indices]
    is empty and [best_model_score] still has its initial value, or
    [inlier_indices] holds exactly the points [i] of [[0, num_data())] with
    [EvaluateModelOnPoint( *best_model, i) < squared_inlier_threshold]. *)
Theorem EstimateModel_inliers_of_returned_model (best_model : Model)
    (statistics : RansacStatistics) :
  let result :=
    EstimateModel Model_default RS options solver best_model statistics in
  let stats := snd result in
  (inlier_indices stats = [] /\ best_model_score stats = DBL_MAX) \/
  (forall i,
      In i (inlier_indices stats) <->
      0 <= i < num_data solver /\
      (EvaluateModelOnPoint solver (snd (fst result)) i < tau2)%R).
Proof.
  destruct (EstimateModel_final_state best_model statistics coherent
              (stats_coherent_init best_model statistics)
              stats_coherent_step)
    as (st & (Hnum & Hratio & Hidx) & -> & _).
  cbv zeta. cbn [fst snd].
  destruct Hidx as [Hempty | ->]; [now left | right].
  intros i. apply inliers_of_In.
Qed.

End DriverReports.

(** ** The score the driver reports *)

Section DriverScores.

Context {Model : Type}.
Variable Model_default : Model.
Variable RS : RandomSource.
Variable options : LORansacOptions.
Variable solver : Solver Model.

Local Abbreviation body := (loop_body Model_default RS options solver).
Local Abbreviation run := (sampling_loop Model_default RS options solver).
Local Abbreviation init := (loop_init Model_default RS options solver).
Local Abbreviation tau2 := (squared_inlier_threshold_ options).

Lemma loop_body_score_le (st : LoopState (Model:=Model) RS) :
  (best_model_score (ls_stats (loop_incr (body st)))
   <= best_model_score (ls_stats st))%R.
Proof.
  unfold loop_body.
  destruct (Sample RS _ _) as [sampler minimal_sample].
  destruct (MinimalSolver solver _ _) as [k estimated_models].
  destruct (k <=? 0); [cbn; lra|].
  destruct (GetBestEstimatedModelId _ _ _ _) as [best_local_score id].
  destruct (Rlt_dec _ _); [|cbn; lra].
  destruct (LocalOptimization _ _ _ _ _ _) as [score_refined refined].
  unfold UpdateBestModel.
  destruct (Rlt_dec score_refined (best_model_score (ls_stats st)));
    destruct (GetInliers _ _ _ _) as [num_inliers v]; cbn; lra.
Qed.

(** X11. [best_model_score] never increases during a run: after one more
    iteration of the sampling loop it is at most what it was, from every
    loop state; in particular the score [EstimateModel] reports is at most
    the initial value [std::numeric_limits<double>::max()]. *)
Theorem best_model_score_never_increases (best_model : Model)
    (statistics : RansacStatistics) :
  (forall (iterations : nat) (st : LoopState (Model:=Model) RS),
      (best_model_score (ls_stats (run (Datatypes.S iterations) st))
       <= best_model_score (ls_stats (run iterations st)))%R) /\
  (best_model_score
     (snd (EstimateModel Model_default RS options solver best_model
             statistics))
   <= DBL_MAX)%R.
Proof.
  split.
  - intros k. induction k as [|k IH]; intros st.
    + cbn [sampling_loop]. destruct (loop_cond st); [|lra].
      apply loop_body_score_le.
    + change (run (Datatypes.S (Datatypes.S k)) st)
        with (if loop_cond st
              then run (Datatypes.S k) (loop_incr (body st)) else st).
      change (run (Datatypes.S k) st)
        with (if loop_cond st then run k (loop_incr (body st)) else st).
      destruct (loop_cond st); [apply IH | lra].
  - destruct (EstimateModel_final_state Model_default RS options solver
                best_model statistics
                (fun st => (best_model_score (ls_stats st) <= DBL_MAX)%R))
      as (st & Hst & -> & _).
    + cbn. lra.
    + intros st Hst. pose proof (loop_body_score_le st). lra.
    + exact Hst.
Qed.

Local Abbreviation bounded := (score_bounded options solver).
Local Abbreviation exact_score := (score_exact options solver).

(** What the improving branch of the body knows about the best local
    model: its score is the MSAC score of the model the body picks. *)
Lemma best_local_score_of_model (estimated_models : list Model)
    (bound : R) :
  (bound <= DBL_MAX)%R ->
  let r :=
    GetBestEstimatedModelId Model_default solver estimated_models tau2 in
  (fst r < bound)%R ->
  fst r
  = ScoreModel solver
      (nth (Z.to_nat (snd r)) estimated_models Model_default) tau2.
Proof.
  intros Hb r Hlt.
  destruct (GetBestEstimatedModelId_prefix Model_default solver
              estimated_models tau2) as (_ & _ & Hbest & _).
  fold r in Hbest. destruct (Hbest ltac:(lra)) as (_ & Hsc & _).
  symmetry. exact Hsc.
Qed.

Lemma score_bounded_step (st : LoopState (Model:=Model) RS) :
  bounded st -> bounded (loop_incr (body st)).
Proof.
  intros (Hmin & Hle & Htrue). unfold loop_body.
  destruct (Sample RS _ _) as [sampler minimal_sample].
  destruct (MinimalSolver solver _ _) as [k estimated_models].
  destruct (k <=? 0); [now repeat split|].
  pose proof (best_local_score_of_model estimated_models
                (ls_best_min_model_score st) Hmin) as Hlocal.
  cbv zeta in Hlocal.
  destruct (GetBestEstimatedModelId _ _ _ _) as [best_local_score id].
  cbn [fst snd] in Hlocal.
  destruct (Rlt_dec _ _) as [Hbetter|]; [|now repeat split].
  specialize (Hlocal Hbetter).
  pose proof (LocalOptimization_le Model_default RS options solver
                (nth (Z.to_nat id) estimated_models Model_default)
                best_local_score) as Hlo.
  destruct (LocalOptimization _ _ _ _ _ _) as [score_refined refined].
  cbn [fst] in Hlo. unfold UpdateBestModel.
  destruct (Rlt_dec score_refined (best_model_score (ls_stats st)));
    destruct (GetInliers _ _ _ _) as [num_inliers v];
    unfold score_bounded, loop_incr;
    cbn [ls_stats ls_best_model ls_best_min_model_score best_model_score];
    repeat split; lra.
Qed.

Lemma score_bounded_init (best_model : Model)
    (statistics : RansacStatistics) :
  bounded (init best_model (ResetStatistics statistics)).
Proof.
  unfold score_bounded, loop_init, ResetStatistics.
  cbn [ls_stats ls_best_model ls_best_min_model_score best_model_score].
  repeat split; try lra.
Qed.

(** X12. The score [EstimateModel] reports, once below its initial value,
    is at most the MSAC score of the model it returns in [*best_model]:
    the reported score is never worse than the score of the returned
    model. *)
Theorem EstimateModel_score_at_most_model_score (best_model : Model)
    (statistics : RansacStatistics) :
  let result :=
    EstimateModel Model_default RS options solver best_model statistics in
  (best_model_score (snd result) < DBL_MAX)%R ->
  (best_model_score (snd result)
   <= ScoreModel solver (snd (fst result)) tau2)%R.
Proof.
  destruct (EstimateModel_final_state Model_default RS options solver
              best_model statistics bounded
              (score_bounded_init best_model statistics)
              score_bounded_step)
    as (st & (_ & _ & Htrue) & -> & _).
  cbv zeta. cbn [fst snd]. exact Htrue.
Qed.

Lemma score_exact_step (st : LoopState (Model:=Model) RS) :
  no_non_minimal_solver solver -> no_least_squares solver ->
  exact_score st -> exact_score (loop_incr (body st)).
Proof.
  intros Hdummy Hid (Hmin & Heq & Htrue). unfold loop_body.
  destruct (Sample RS _ _) as [sampler minimal_sample].
  destruct (MinimalSolver solver _ _) as [k estimated_models].
  destruct (k <=? 0); [now repeat split|].
  pose proof (best_local_score_of_model estimated_models
                (ls_best_min_model_score st) Hmin) as Hlocal.
  cbv zeta in Hlocal.
  destruct (GetBestEstimatedModelId _ _ _ _) as [best_local_score id].
  cbn [fst snd] in Hlocal.
  destruct (Rlt_dec _ _) as [Hbetter|]; [|now repeat split].
  specialize (Hlocal Hbetter).
  rewrite (LocalOptimization_noop Model_default RS options solver _ _
             Hdummy Hid Hlocal).
  unfold UpdateBestModel. rewrite Heq.
  destruct (Rlt_dec best_local_score (ls_best_min_model_score st));
    [|contradiction].
  destruct (GetInliers _ _ _ _) as [num_inliers v].
  unfold score_exact, loop_incr.
  cbn [ls_stats ls_best_model ls_best_min_model_score best_model_score].
  repeat split; [lra | intros _; exact Hlocal].
Qed.

Lemma score_exact_init (best_model : Model) (statistics : RansacStatistics) :
  exact_score (init best_model (ResetStatistics statistics)).
Proof.
  unfold score_exact, loop_init, ResetStatistics.
  cbn [ls_stats ls_best_model ls_best_min_model_score best_model_score].
  repeat split; try lra.
Qed.

(** X13. For a solver without non-minimal solver and without least squares
    refinement, [EstimateModel] is plain MSAC: the score it reports, once
    below its initial value, is exactly the MSAC score of the model it
    returns in [*best_model]. *)
Theorem EstimateModel_without_refinement_score (best_model : Model)
    (statistics : RansacStatistics) :
  no_non_minimal_solver solver ->
  no_least_squares solver ->
  let result :=
    EstimateModel Model_default RS options solver best_model statistics in
  (best_model_score (snd result) < DBL_MAX)%R ->
  best_model_score (snd result)
  = ScoreModel solver (snd (fst result)) tau2.
Proof.
  intros Hdummy Hid.
  destruct (EstimateModel_final_state Model_default RS options solver
              best_model statistics exact_score
              (score_exact_init best_model statistics)
              (fun st => score_exact_step st Hdummy Hid))
    as (st & (_ & _ & Htrue) & -> & _).
  cbv zeta. cbn [fst snd]. exact Htrue.
Qed.

End DriverScores.

(** ** How many iterations the driver runs *)

Lemma NumRequiredIterations_between (eps eta : R) (s min_it max_it : Z) :
  Z.min min_it max_it
  <= NumRequiredIterations eps eta s min_it max_it
  <= Z.max max_it min_it.
Proof.
  unfold NumRequiredIterations.
  destruct (Rle_dec eps 0); [lia|]. destruct (Rge_dec eps 1); lia.
Qed.

Section DriverIterations.

Context {Model : Type}.
Variable Model_default : Model.
Variable RS : RandomSource.
Variable options : LORansacOptions.
Variable solver : Solver Model.

Local Abbreviation body := (loop_body Model_default RS options solver).
Local Abbreviation run := (sampling_loop Model_default RS options solver).
Local Abbreviation init := (loop_init Model_default RS options solver).
Local Abbreviation lowest :=
  (Z.min (min_num_iterations_ options) (max_num_iterations_ options)).
Local Abbreviation highest :=
  (Z.max (max_num_iterations_ options) (min_num_iterations_ options)).

Lemma budget_inv_init_any (best_model : Model) (stats : RansacStatistics) :
  is_uint32 (min_num_iterations_ options) ->
  is_uint32 (max_num_iterations_ options) ->
  budget_inv lowest highest (init best_model stats).
Proof.
  unfold is_uint32, budget_inv, loop_init.
  cbn [ls_stats ls_max_num_iterations num_iterations]. lia.
Qed.

(** X14. For all options of type [uint32_t], also when
    [min_num_iterations > max_num_iterations], a run of [EstimateModel]
    with enough data ends, and the number of iterations it reports lies
    between the smaller and the larger of the two options. *)
Theorem EstimateModel_iterations_any_options (best_model : Model)
    (statistics : RansacStatistics) :
  is_uint32 (min_num_iterations_ options) ->
  is_uint32 (max_num_iterations_ options) ->
  0 < min_sample_size solver <= num_data solver ->
  let st0 := init best_model (ResetStatistics statistics) in
  let result :=
    EstimateModel Model_default RS options solver best_model statistics in
  loop_cond (run (Z.to_nat (ls_max_num_iterations st0)) st0) = false /\
  snd result = ls_stats (run (Z.to_nat (ls_max_num_iterations st0)) st0) /\
  lowest <= num_iterations (snd result) <= highest.
Proof.
  intros Hmin Hmax Hdata st0 result.
  assert (is_uint32 highest) as Hhi by (unfold is_uint32 in *; lia).
  assert (Hreq := fun eps eta =>
            NumRequiredIterations_between eps eta (min_sample_size solver)
              (min_num_iterations_ options) (max_num_iterations_ options)).
  assert (Hinit := budget_inv_init_any best_model
                     (ResetStatistics statistics) Hmin Hmax).
  fold st0 in Hinit.
  assert (Hend := EstimateModel_loop_ends Model_default RS options solver
                    best_model (ResetStatistics statistics) Hmin Hmax).
  cbv zeta in Hend. fold st0 in Hend.
  assert (snd result
          = ls_stats (run (Z.to_nat (ls_max_num_iterations st0)) st0)) as E.
  { subst result. now rewrite EstimateModel_enough_data. }
  split; [exact Hend | split; [exact E|] ].
  rewrite E.
  destruct (budget_inv_run Model_default RS options solver lowest highest
              Hhi Hreq (Z.to_nat (ls_max_num_iterations st0)) st0 Hinit)
    as [HT Hit].
  unfold loop_cond in Hend. apply Z.ltb_ge in Hend. lia.
Qed.

(** *** Runs without improvement use the whole budget *)

(** X15. When no iteration of the run has a candidate that improves on the
    initial state (for instance because [MinimalSolver] returns [0] in
    every iteration) and there is enough data, [EstimateModel] runs the
    whole budget: the number of iterations it reports is the larger of
    [max_num_iterations] and [min_num_iterations]. *)
Theorem EstimateModel_no_improvement_iterations (best_model : Model)
    (statistics : RansacStatistics) :
  run_never_improves Model_default RS options solver
    (init best_model (ResetStatistics statistics)) ->
  is_uint32 (min_num_iterations_ options) ->
  is_uint32 (max_num_iterations_ options) ->
  0 < min_sample_size solver <= num_data solver ->
  num_iterations
    (snd (EstimateModel Model_default RS options solver best_model
            statistics))
  = highest.
Proof.
  intros Hnever Hmin Hmax Hdata.
  rewrite EstimateModel_enough_data by exact Hdata. cbv zeta. cbn [snd].
  set (st0 := init best_model (ResetStatistics statistics)) in *.
  set (fuel := Z.to_nat (ls_max_num_iterations st0)).
  assert (is_uint32 highest) as Hhi by (unfold is_uint32 in *; lia).
  assert (Hreq := fun eps eta =>
            NumRequiredIterations_between eps eta (min_sample_size solver)
              (min_num_iterations_ options) (max_num_iterations_ options)).
  assert (Hinit := budget_inv_init_any best_model
                     (ResetStatistics statistics) Hmin Hmax).
  fold st0 in Hinit.
  assert (Hend := EstimateModel_loop_ends Model_default RS options solver
                    best_model (ResetStatistics statistics) Hmin Hmax).
  cbv zeta in Hend. fold st0 fuel in Hend.
  destruct (budget_inv_run Model_default RS options solver lowest highest
              Hhi Hreq fuel st0 Hinit) as [_ Hit].
  destruct (run_without_improvement Model_default RS options solver
              best_model st0 (untouched_init Model_default RS options solver
                                best_model statistics) Hnever fuel
              (le_n _))
    as [_ HT].
  change (ls_max_num_iterations st0) with highest in HT.
  unfold loop_cond in Hend. apply Z.ltb_ge in Hend. lia.
Qed.

End DriverIterations.

(** ** The required iterations against the inlier ratio *)

Lemma Rpower_in_unit (x s : R) :
  (0 < x < 1)%R -> (0 < s)%R -> (0 < Rpower x s < 1)%R.
Proof.
  intros [H0 H1] Hs. unfold Rpower. split; [apply exp_pos|].
  rewrite <- exp_0. apply exp_increasing.
  assert (ln x < 0)%R by (rewrite <- ln_1; now apply ln_increasing).
  nra.
Qed.

Lemma ln_monotone (x y : R) : (0 < x)%R -> (x <= y)%R -> (ln x <= ln y)%R.
Proof.
  intros Hx [Hlt | ->]; [left; now apply ln_increasing | lra].
Qed.

Lemma ln_negative (x : R) : (0 < x < 1)%R -> (ln x < 0)%R.
Proof. intros [H0 H1]. rewrite <- ln_1. now apply ln_increasing. Qed.

(** A larger inlier ratio gives a smaller value to round up. *)
Lemma iterations_formula_antitone (eps1 eps2 eta : R) (s : Z) :
  (0 < eta < 1)%R -> 0 < s ->
  (0 < eps1)%R -> (eps1 <= eps2)%R -> (eps2 < 1)%R ->
  (0 < iterations_formula eps2 eta s <= iterations_formula eps1 eta s)%R.
Proof.
  intros Heta Hs H1 H12 H2. unfold iterations_formula.
  assert (0 < IZR s)%R as HsR by now apply IZR_lt.
  pose proof (Rpower_in_unit eps1 (IZR s) ltac:(lra) HsR) as Hp1.
  pose proof (Rpower_in_unit eps2 (IZR s) ltac:(lra) HsR) as Hp2.
  assert (Rpower eps1 (IZR s) <= Rpower eps2 (IZR s))%R as Hp
    by (apply Rle_Rpower_l; lra).
  pose proof (ln_negative eta Heta) as Ha.
  pose proof (ln_negative (1 - Rpower eps1 (IZR s)) ltac:(lra)) as Hb1.
  pose proof (ln_negative (1 - Rpower eps2 (IZR s)) ltac:(lra)) as Hb2.
  pose proof (ln_monotone (1 - Rpower eps2 (IZR s))
                (1 - Rpower eps1 (IZR s)) ltac:(lra) ltac:(lra)) as Hb.
  set (a := ln eta) in *.
  set (b1 := ln (1 - Rpower eps1 (IZR s))) in *.
  set (b2 := ln (1 - Rpower eps2 (IZR s))) in *.
  assert (a / b1 * b1 = a)%R as E1 by (field; lra).
  assert (a / b2 * b2 = a)%R as E2 by (field; lra).
  assert (0 < a / b2)%R as Hpos2.
  { replace (a / b2)%R with ((- a) / (- b2))%R by (field; lra).
    apply Rdiv_lt_0_compat; lra. }
  assert (0 < a / b1)%R as Hpos1.
  { replace (a / b1)%R with ((- a) / (- b1))%R by (field; lra).
    apply Rdiv_lt_0_compat; lra. }
  split; [lra|].
  assert (a / b2 <= a / b1)%R; [|lra].
  destruct (Rle_dec (a / b2) (a / b1)) as [H|H]; [exact H|].
  exfalso. nra.
Qed.

Lemma Zceil_IZR (z : Z) : Zceil (IZR z) = z.
Proof. apply Zceil_eq. lra. Qed.

Lemma NumRequiredIterations_interior_value (eps eta : R)
    (s min_it max_it : Z) :
  (0 < eps < 1)%R ->
  (0 < iterations_formula eps eta s <= IZR (UINT32_MODULUS - 1))%R ->
  NumRequiredIterations eps eta s min_it max_it
  = Z.max min_it (Z.min (Zceil (iterations_formula eps eta s)) max_it).
Proof.
  intros Heps [Hpos Hrange]. unfold NumRequiredIterations.
  destruct (Rle_dec eps 0); [lra|]. destruct (Rge_dec eps 1); [lra|].
  fold (iterations_formula eps eta s). unfold std_ceil.
  rewrite double_to_uint32_IZR; [reflexivity|].
  pose proof (Zceil_bound (iterations_formula eps eta s)) as [_ Hup].
  pose proof (Zceil_le _ _ Hrange) as Hle. rewrite Zceil_IZR in Hle.
  assert (0 < IZR (Zceil (iterations_formula eps eta s)))%R as Hc by lra.
  apply lt_IZR in Hc. unfold is_uint32. lia.
Qed.


(** ** The sample least squares is fitted on *)

Section LeastSquaresSample.

Context {Model : Type}.
Variable RS : RandomSource.
Variable options : LORansacOptions.
Variable solver : Solver Model.

(** X17. [LeastSquaresFit] collects the inliers of the model under the
    threshold (the points [i] of [[0, num_data())] with
    [EvaluateModelOnPoint(model, i) < thresh], in increasing order), asks
    the shuffle for
    [min(min_sample_multiplicator * min_sample_size, #inliers)] of them,
    and returns [LeastSquares] applied to what the shuffle hands back,
    together with the generator the shuffle leaves.  The size asked for is
    never more than the number of inliers; so, with a shuffle that returns
    elements of its vector in that case, the sample is made of inliers
    only. *)
Theorem LeastSquaresFit_on_inliers (thresh : R) (rng : Rng RS)
    (model : Model) :
  let inliers := inliers_of solver model thresh in
  let kNumInliers := Z.of_nat (length inliers) in
  let lsq_data_size :=
    Z.min (min_sample_multiplicator_ options * min_sample_size solver)
      kNumInliers in
  let shuffled := RandomShuffleAndResize RS lsq_data_size rng inliers in
  LeastSquaresFit RS options thresh solver rng model
  = (fst shuffled, LeastSquares solver (snd shuffled) model) /\
  GetInliers solver model thresh (Some []) = (kNumInliers, Some inliers) /\
  lsq_data_size <= kNumInliers /\
  lsq_data_size
  <= min_sample_multiplicator_ options * min_sample_size solver /\
  (shuffle_keeps_elements RS ->
   forall i,
     In i (snd shuffled) ->
     0 <= i < num_data solver /\
     (EvaluateModelOnPoint solver model i < thresh)%R).
Proof.
  intros inliers kNumInliers lsq_data_size shuffled.
  assert (GetInliers solver model thresh (Some [])
          = (kNumInliers, Some inliers)) as Hcollect
    by apply GetInliers_collect.
  split; [|split; [exact Hcollect|] ].
  - unfold LeastSquaresFit. rewrite Hcollect. cbn [vector_of].
    fold lsq_data_size. fold shuffled.
    destruct shuffled as [rng' sample]. reflexivity.
  - split; [subst lsq_data_size; lia|].
    split; [subst lsq_data_size; lia|].
    intros Hshuffle i Hi.
    apply (inliers_of_In solver model thresh).
    apply (Hshuffle lsq_data_size rng inliers); [|exact Hi].
    subst lsq_data_size kNumInliers. lia.
Qed.

End LeastSquaresSample.

(** ** The budget and the reported inlier ratio *)

Section BudgetAndRatio.

Context {Model : Type}.
Variable Model_default : Model.
Variable RS : RandomSource.
Variable options : LORansacOptions.
Variable solver : Solver Model.

Local Abbreviation body := (loop_body Model_default RS options solver).
Local Abbreviation run := (sampling_loop Model_default RS options solver).
Local Abbreviation init := (loop_init Model_default RS options solver).
Local Abbreviation follows := (budget_follows_ratio options solver).

Lemma budget_follows_ratio_step (st : LoopState (Model:=Model) RS) :
  follows st -> follows (loop_incr (body st)).
Proof.
  intros Hst. unfold loop_body.
  destruct (Sample RS _ _) as [sampler minimal_sample].
  destruct (MinimalSolver solver _ _) as [k estimated_models].
  destruct (k <=? 0); [exact Hst|].
  destruct (GetBestEstimatedModelId _ _ _ _) as [best_local_score id].
  destruct (Rlt_dec _ _); [|exact Hst].
  destruct (LocalOptimization _ _ _ _ _ _) as [score_refined refined].
  destruct (UpdateBestModel _ _ _) as [score best_model].
  destruct (GetInliers _ _ _ _) as [num_inliers v].
  right. reflexivity.
Qed.

(** X18. A run of [EstimateModel] with enough data never stops early: the
    number of iterations it reports is the whole first budget, or it is at
    least what [NumRequiredIterations] gives for the inlier ratio it
    reports. *)
Theorem EstimateModel_runs_required_iterations (best_model : Model)
    (statistics : RansacStatistics) :
  is_uint32 (min_num_iterations_ options) ->
  is_uint32 (max_num_iterations_ options) ->
  0 < min_sample_size solver <= num_data solver ->
  let stats :=
    snd (EstimateModel Model_default RS options solver best_model
           statistics) in
  num_iterations stats
  = Z.max (max_num_iterations_ options) (min_num_iterations_ options) \/
  NumRequiredIterations (inlier_ratio stats)
    (1 - success_probability_ options)%R (min_sample_size solver)
    (min_num_iterations_ options) (max_num_iterations_ options)
  <= num_iterations stats.
Proof.
  intros Hmin Hmax Hdata.
  rewrite EstimateModel_enough_data by exact Hdata. cbv zeta. cbn [snd].
  set (st0 := init best_model (ResetStatistics statistics)).
  set (fuel := Z.to_nat (ls_max_num_iterations st0)).
  set (hi := Z.max (max_num_iterations_ options)
               (min_num_iterations_ options)).
  set (lo := Z.min (min_num_iterations_ options)
               (max_num_iterations_ options)).
  assert (is_uint32 hi) as Hhi by (unfold is_uint32 in *; lia).
  assert (Hreq := fun eps eta =>
            NumRequiredIterations_between eps eta (min_sample_size solver)
              (min_num_iterations_ options) (max_num_iterations_ options)).
  assert (budget_inv lo hi st0) as Hinit.
  { unfold is_uint32, budget_inv, st0, loop_init in *.
    cbn [ls_stats ls_max_num_iterations num_iterations]. lia. }
  assert (Hend := EstimateModel_loop_ends Model_default RS options solver
                    best_model (ResetStatistics statistics) Hmin Hmax).
  cbv zeta in Hend. fold st0 fuel in Hend.
  destruct (budget_inv_run Model_default RS options solver lo hi
              Hhi Hreq fuel st0 Hinit) as [_ Hit].
  assert (follows (run fuel st0)) as Hfollows.
  { apply (sampling_loop_invariant Model_default RS options solver follows).
    - exact budget_follows_ratio_step.
    - now left. }
  unfold loop_cond in Hend. apply Z.ltb_ge in Hend.
  destruct Hfollows as [HT | HT]; rewrite HT in Hend.
  - left. fold hi in Hend. lia.
  - right. exact Hend.
Qed.

End BudgetAndRatio.

(** ** The further theorems at concrete inputs *)

Lemma firstn_In {A : Type} (n : nat) :
  forall (l : list A) (x : A), In x (firstn n l) -> In x l.
Proof.
  induction n as [|n IH]; intros [|a l] x H; cbn [firstn] in H;
    try contradiction.
  destruct H as [-> | H]; [now left | right; apply IH, H].
Qed.

Lemma counting_shuffle_keeps_elements :
  shuffle_keeps_elements counting_random_source.
Proof.
  intros k rng v _. cbn [counting_random_source RandomShuffleAndResize snd].
  intros x. apply firstn_In.
Qed.

Lemma refining_run_score :
  best_model_score
    (snd (EstimateModel 0 counting_random_source one_iteration_options
            refining_solver 0 zero_statistics)) = 0%R.
Proof. run_concrete. lra. Qed.

Lemma plain_ScoreModel (m : Z) : ScoreModel plain_solver m 1%R = 1%R.
Proof. run_concrete. lra. Qed.

Lemma plain_run_score :
  best_model_score
    (snd (EstimateModel 0 counting_random_source one_iteration_options
            plain_solver 0 zero_statistics)) = 1%R.
Proof. run_concrete. lra. Qed.

Lemma iterations_formula_half :
  (143 < iterations_formula (5 / 10) (1 / 10000) 4 < 144)%R.
Proof.
  unfold iterations_formula.
  replace (IZR 4) with (INR 4) by (simpl; lra).
  rewrite Rpower_pow by lra.
  replace (1 - (5 / 10) ^ 4)%R with (/ (16 / 15))%R by (simpl; field).
  replace (1 / 10000)%R with (/ 10000)%R by lra.
  rewrite !ln_Rinv by lra.
  pose proof ln_10000_over_ln_16_15 as [Hlo Hhi].
  assert (0 < ln (16 / 15))%R as HD.
  { rewrite <- ln_1. apply ln_increasing; lra. }
  replace (- ln 10000 / - ln (16 / 15))%R
    with (ln 10000 / ln (16 / 15))%R by (field; lra).
  lra.
Qed.

(** Model [1] of [refining_solver] leaves the residual [1/2] at both
    points: under the threshold [1/2] it has no inliers, and with sums
    rounded down to integers its score is [0]. *)
Lemma ScoreModel_inliers_outliers_refining :
  fst (GetInliers refining_solver 1%Z (1 / 2)%R None) = 0 /\
  ScoreModel_rounded round_down refining_solver 1%Z (1 / 2)%R
  = accumulated round_down (1 / 2)%R
      (Z.to_nat (num_data refining_solver)).
Proof.
  assert (fst (GetInliers refining_solver 1%Z (1 / 2)%R None) = 0) as Hnone.
  { run_concrete. reflexivity. }
  split; [exact Hnone|].
  apply (ScoreModel_inliers_outliers refining_solver 1%Z round_down
           (1 / 2)%R), Hnone.
Defined.

(** The inliers of model [1] of [refining_solver] under the thresholds
    [1/4] and [1]. *)
Lemma GetInliers_threshold_monotone_refining :
  (1 / 4 <= 1)%R /\
  incl (vector_of (snd (GetInliers refining_solver 1%Z (1 / 4)%R (Some []))))
       (vector_of (snd (GetInliers refining_solver 1%Z 1%R (Some [])))) /\
  fst (GetInliers refining_solver 1%Z (1 / 4)%R None)
  <= fst (GetInliers refining_solver 1%Z 1%R None).
Proof.
  assert (1 / 4 <= 1)%R as H by lra.
  split; [exact H|].
  apply (GetInliers_threshold_monotone refining_solver 1%Z (1 / 4)%R 1%R None
           H).
Defined.

(** The scores of model [1] of [refining_solver] under the thresholds
    [1/4] and [1]. *)
Lemma ScoreModel_threshold_monotone_refining :
  (1 / 4 <= 1)%R /\
  (ScoreModel refining_solver 1%Z (1 / 4)
   <= ScoreModel refining_solver 1%Z 1)%R.
Proof.
  assert (1 / 4 <= 1)%R as H by lra.
  split; [exact H|].
  apply (ScoreModel_threshold_monotone refining_solver 1%Z (1 / 4)%R 1%R H).
Defined.

(** Local optimization of model [1] of [refining_solver] with its score. *)
Lemma LocalOptimization_score_of_model_refining :
  1%R = ScoreModel refining_solver 1%Z
          (squared_inlier_threshold_ one_iteration_options) /\
  let refined :=
    LocalOptimization 0 counting_random_source one_iteration_options
      refining_solver 1%Z 1%R in
  fst refined
  = ScoreModel refining_solver (snd refined)
      (squared_inlier_threshold_ one_iteration_options).
Proof.
  assert (1%R = ScoreModel refining_solver 1%Z
                  (squared_inlier_threshold_ one_iteration_options)) as H.
  { symmetry. apply refining_ScoreModel. }
  split; [exact H|].
  apply (LocalOptimization_score_of_model 0 counting_random_source
           one_iteration_options refining_solver 1%Z 1%R H).
Defined.

(** [refining_solver] has the dummy non-minimal solver. *)
Lemma LocalOptimization_without_non_minimal_solver_refining :
  no_non_minimal_solver refining_solver /\
  non_minimal_sample_size refining_solver <= num_data refining_solver /\
  let m_init :=
    snd (LeastSquaresFit counting_random_source one_iteration_options
           (1 * sqrt 2)%R refining_solver 0 1) in
  LocalOptimization 0 counting_random_source one_iteration_options
    refining_solver 1%Z 1%R
  = UpdateBestModel (ScoreModel refining_solver m_init 1%R) m_init (1%R, 1).
Proof.
  assert (no_non_minimal_solver refining_solver) as Hdummy
    by (intros sample m; reflexivity).
  assert (non_minimal_sample_size refining_solver
          <= num_data refining_solver) as Hdata by (cbn; lia).
  split; [exact Hdummy | split; [exact Hdata|] ].
  apply (LocalOptimization_without_non_minimal_solver 0
           counting_random_source one_iteration_options refining_solver 1%Z
           1%R Hdummy Hdata).
Defined.

(** [plain_solver] has neither non-minimal solver nor least squares. *)
Lemma LocalOptimization_without_refinement_plain :
  no_non_minimal_solver plain_solver /\
  no_least_squares plain_solver /\
  1%R = ScoreModel plain_solver 1%Z
          (squared_inlier_threshold_ one_iteration_options) /\
  LocalOptimization 0 counting_random_source one_iteration_options
    plain_solver 1%Z 1%R = (1%R, 1).
Proof.
  assert (no_non_minimal_solver plain_solver) as Hdummy
    by (intros sample m; reflexivity).
  assert (no_least_squares plain_solver) as Hid
    by (intros inliers m; reflexivity).
  assert (1%R = ScoreModel plain_solver 1%Z
                  (squared_inlier_threshold_ one_iteration_options)) as H.
  { symmetry. apply plain_ScoreModel. }
  split; [exact Hdummy | split; [exact Hid | split; [exact H|] ] ].
  apply (LocalOptimization_without_refinement 0 counting_random_source
           one_iteration_options plain_solver 1%Z 1%R Hdummy Hid H).
Defined.

(** The run on [refining_solver] reports a score below its initial value. *)
Lemma EstimateModel_score_at_most_model_score_refining :
  let result :=
    EstimateModel 0 counting_random_source one_iteration_options
      refining_solver 0 zero_statistics in
  (best_model_score (snd result) < DBL_MAX)%R /\
  (best_model_score (snd result)
   <= ScoreModel refining_solver (snd (fst result)) 1)%R.
Proof.
  cbv zeta.
  assert (Rlt (best_model_score
                 (snd (EstimateModel 0 counting_random_source
                         one_iteration_options refining_solver 0
                         zero_statistics))) DBL_MAX) as H.
  { rewrite refining_run_score. pose proof DBL_MAX_gt_1000. lra. }
  split; [exact H|].
  apply (EstimateModel_score_at_most_model_score 0 counting_random_source
           one_iteration_options refining_solver 0 zero_statistics H).
Defined.

(** The run on [plain_solver], which has no refinement at all. *)
Lemma EstimateModel_without_refinement_score_plain :
  let result :=
    EstimateModel 0 counting_random_source one_iteration_options
      plain_solver 0 zero_statistics in
  no_non_minimal_solver plain_solver /\
  no_least_squares plain_solver /\
  (best_model_score (snd result) < DBL_MAX)%R /\
  best_model_score (snd result)
  = ScoreModel plain_solver (snd (fst result)) 1%R.
Proof.
  cbv zeta.
  assert (no_non_minimal_solver plain_solver) as Hdummy
    by (intros sample m; reflexivity).
  assert (no_least_squares plain_solver) as Hid
    by (intros inliers m; reflexivity).
  assert (Rlt (best_model_score
                 (snd (EstimateModel 0 counting_random_source
                         one_iteration_options plain_solver 0
                         zero_statistics))) DBL_MAX) as H.
  { rewrite plain_run_score. pose proof DBL_MAX_gt_1000. lra. }
  split; [exact Hdummy | split; [exact Hid | split; [exact H|] ] ].
  apply (EstimateModel_without_refinement_score 0 counting_random_source
           one_iteration_options plain_solver 0 zero_statistics Hdummy Hid
           H).
Defined.

(** Options with [min_num_iterations > max_num_iterations]. *)
Lemma EstimateModel_iterations_any_options_exchanged :
  is_uint32 (min_num_iterations_ exchanged_options) /\
  is_uint32 (max_num_iterations_ exchanged_options) /\
  0 < min_sample_size refining_solver <= num_data refining_solver /\
  100 <= num_iterations
           (snd (EstimateModel 0 counting_random_source exchanged_options
                   refining_solver 0 zero_statistics))
      <= 10000.
Proof.
  assert (is_uint32 10000) as Hmin by (unfold is_uint32, UINT32_MODULUS; lia).
  assert (is_uint32 100) as Hmax by (unfold is_uint32, UINT32_MODULUS; lia).
  assert (0 < 1 <= 2) as Hdata by lia.
  repeat split; try assumption; try (cbn; lia);
    apply (EstimateModel_iterations_any_options 0 counting_random_source
             exchanged_options refining_solver 0 zero_statistics
             Hmin Hmax Hdata).
Defined.

(** The run on [fussy_solver] with the default options: every iteration
    draws the sample for which the solver returns no model. *)
Lemma EstimateModel_no_improvement_iterations_fussy :
  run_never_improves 0 counting_random_source LORansacOptions_default
    fussy_solver
    (loop_init 0 counting_random_source LORansacOptions_default fussy_solver
       7 (ResetStatistics zero_statistics)) /\
  is_uint32 (min_num_iterations_ LORansacOptions_default) /\
  is_uint32 (max_num_iterations_ LORansacOptions_default) /\
  0 < min_sample_size fussy_solver <= num_data fussy_solver /\
  num_iterations
    (snd (EstimateModel 0 counting_random_source LORansacOptions_default
            fussy_solver 7 zero_statistics))
  = 10000.
Proof.
  assert (is_uint32 100) as Hmin by (unfold is_uint32, UINT32_MODULUS; lia).
  assert (is_uint32 10000) as Hmax by (unfold is_uint32, UINT32_MODULUS; lia).
  assert (0 < 1 <= 2) as Hdata by lia.
  split; [apply fussy_run_never_improves|].
  split; [exact Hmin | split; [exact Hmax | split; [exact Hdata|] ] ].
  apply (EstimateModel_no_improvement_iterations 0 counting_random_source
           LORansacOptions_default fussy_solver 7 zero_statistics
           (fussy_run_never_improves LORansacOptions_default 7)
           Hmin Hmax Hdata).
Defined.


(** [LeastSquaresFit] on [refining_solver] with the shuffle of
    [counting_random_source]: both points are inliers of model [1] under
    the threshold [1], and both are handed to [LeastSquares]. *)
Lemma LeastSquaresFit_on_inliers_refining :
  shuffle_keeps_elements counting_random_source /\
  inliers_of refining_solver 1%Z 1%R = [0; 1] /\
  let inliers := inliers_of refining_solver 1%Z 1%R in
  let kNumInliers := Z.of_nat (length inliers) in
  let lsq_data_size :=
    Z.min (min_sample_multiplicator_ one_iteration_options
           * min_sample_size refining_solver) kNumInliers in
  let shuffled :=
    RandomShuffleAndResize counting_random_source lsq_data_size 0 inliers in
  LeastSquaresFit counting_random_source one_iteration_options 1%R
    refining_solver 0 1
  = (fst shuffled, LeastSquares refining_solver (snd shuffled) 1) /\
  GetInliers refining_solver 1%Z 1%R (Some [])
  = (kNumInliers, Some inliers) /\
  lsq_data_size <= kNumInliers /\
  lsq_data_size
  <= min_sample_multiplicator_ one_iteration_options
     * min_sample_size refining_solver /\
  (shuffle_keeps_elements counting_random_source ->
   forall i,
     In i (snd shuffled) ->
     0 <= i < num_data refining_solver /\
     (EvaluateModelOnPoint refining_solver 1%Z i < 1)%R).
Proof.
  split; [exact counting_shuffle_keeps_elements|].
  split; [unfold inliers_of, is_inlier; run_concrete; reflexivity|].
  apply (LeastSquaresFit_on_inliers counting_random_source
           one_iteration_options refining_solver 1%R 0 1).
Defined.

(** The default options on [refining_solver]. *)
Lemma EstimateModel_runs_required_iterations_default :
  is_uint32 (min_num_iterations_ LORansacOptions_default) /\
  is_uint32 (max_num_iterations_ LORansacOptions_default) /\
  0 < min_sample_size refining_solver <= num_data refining_solver /\
  let stats :=
    snd (EstimateModel 0 counting_random_source LORansacOptions_default
           refining_solver 0 zero_statistics) in
  num_iterations stats = Z.max 10000 100 \/
  NumRequiredIterations (inlier_ratio stats) (1 - 9999 / 10000)%R 1 100
    10000
  <= num_iterations stats.
Proof.
  assert (is_uint32 100) as Hmin by (unfold is_uint32, UINT32_MODULUS; lia).
  assert (is_uint32 10000) as Hmax by (unfold is_uint32, UINT32_MODULUS; lia).
  assert (0 < 1 <= 2) as Hdata by lia.
  split; [exact Hmin | split; [exact Hmax | split; [exact Hdata|] ] ].
  apply (EstimateModel_runs_required_iterations 0 counting_random_source
           LORansacOptions_default refining_solver 0 zero_statistics
           Hmin Hmax Hdata).
Defined.
